(** * CircleSimulation: a ball bouncing inside a circular boundary

    A shallow embedding of [src/CircleSimulation.ts] (class
    [CircleSimulation]): the physics tick [update], the animation driver
    ([animate], [start], [stop], the pointer handlers) and the capture
    session ([setupRecording], [startRecording], [stopRecording]); and of
    the handlers of the application around it ([App.tsx]) that drive an
    instance: play/pause, record, and the pointer on the canvas with its
    text labels.

    JavaScript numbers are IEEE 754 doubles.  The methods are written once,
    over an interface [Number] of the operations the class uses, and read at
    two instances:
    - [RealNum]: exact real arithmetic, where the algebraic laws of the
      physics are stated and proved;
    - [FloatNum]: binary64 floats, which evaluate the methods the way
      the engine does, NaN and infinities included. *)

From Stdlib Require Import ZArith List Reals Lra Lia.
From Stdlib Require PrimFloat FloatAxioms SpecFloat FloatOps String.
Import ListNotations.

Set Implicit Arguments.

(** ** The arithmetic the class uses *)

Declare Scope num_scope.
Delimit Scope num_scope with num.

Class Number (num : Type) : Type := {
  nZ : Z -> num;                      (* an integer literal *)
  nadd : num -> num -> num;
  nsub : num -> num -> num;
  nmul : num -> num -> num;
  ndiv : num -> num -> num;
  nsqrt : num -> num;                 (* Math.sqrt *)
  nmin : num -> num -> num;           (* Math.min *)
  ncos : num -> num;                  (* Math.cos *)
  nsin : num -> num;                  (* Math.sin *)
  natan2 : num -> num -> num;         (* Math.atan2 (y, x) *)
  nltb : num -> num -> bool;          (* a < b *)
  nleb : num -> num -> bool           (* a <= b; a >= b is [nleb b a] *)
}.

Infix "+" := nadd : num_scope.
Infix "-" := nsub : num_scope.
Infix "*" := nmul : num_scope.
Infix "/" := ndiv : num_scope.

(** A decimal literal [p/q] of the source.  Both operands are integers a
    double holds exactly, so the correctly rounded quotient is the double the
    literal denotes (0.95 is [lit 95 100]). *)
Definition lit {num} `{Number num} (p q : Z) : num := (nZ p / nZ q)%num.

(** *** Exact real arithmetic *)

Module RealNum.

Local Open Scope R_scope.

Definition ltb (a b : R) : bool := if Rlt_dec a b then true else false.
Definition leb (a b : R) : bool := if Rle_dec a b then true else false.

(** The angle of the point [(x, y)], in (-PI, PI]. *)
Definition atan2 (y x : R) : R :=
  if Rlt_dec 0 x then atan (y / x)
  else if Rlt_dec x 0 then
    (if Rle_dec 0 y then atan (y / x) + PI else atan (y / x) - PI)
  else if Rlt_dec 0 y then PI / 2
  else if Rlt_dec y 0 then - (PI / 2)
  else 0.

#[export] Instance number : Number R := {
  nZ := IZR;
  nadd := Rplus; nsub := Rminus; nmul := Rmult; ndiv := Rdiv;
  nsqrt := sqrt; nmin := Rmin;
  ncos := cos; nsin := sin; natan2 := atan2;
  nltb := ltb; nleb := leb
}.

End RealNum.

(** *** Binary64 floats *)

Module FloatNum.

Import PrimFloat.

Fixpoint of_pos (p : positive) : float :=
  match p with
  | xH => 1
  | xO q => 2 * of_pos q
  | xI q => 2 * of_pos q + 1
  end%float.

Definition of_Z (z : Z) : float :=
  match z with
  | Z0 => 0
  | Zpos p => of_pos p
  | Zneg p => - of_pos p
  end%float.

(** [Math.min]: NaN if either argument is NaN, and -0 below +0. *)
Definition min (a b : float) : float :=
  if (is_nan a || is_nan b)%bool then nan
  else if PrimFloat.ltb a b then a
  else if PrimFloat.ltb b a then b
  else if (is_zero a && get_sign a)%bool then a else b.

(** [Math.cos], [Math.sin] and [Math.atan2] are approximated by the engine
    and have no primitive here: the float instance takes them as given. *)
Record Trig : Type := {
  fcos : float -> float;
  fsin : float -> float;
  fatan2 : float -> float -> float
}.

Definition number (t : Trig) : Number float := {|
  nZ := of_Z;
  nadd := PrimFloat.add; nsub := PrimFloat.sub;
  nmul := PrimFloat.mul; ndiv := PrimFloat.div;
  nsqrt := PrimFloat.sqrt; nmin := min;
  ncos := fcos t; nsin := fsin t; natan2 := fatan2 t;
  nltb := PrimFloat.ltb; nleb := PrimFloat.leb
|}.

End FloatNum.

(** ** The state of an instance *)

(** Callbacks handed in by the caller are known by a name; calling one is
    recorded in the trace of the browser. *)
Definition Callback : Type := nat.

(** A [Blob] is its bytes; [new Blob(parts)] concatenates. *)
Definition Blob : Type := list nat.

Inductive Track : Type :=
  | VideoTrack (fps : nat)
  | AudioTrack (id : nat).

Inductive RecordingState : Type := inactive | recording | paused.

(** A [MediaRecorder] object of the browser. *)
Record MediaRecorder : Type := {
  stream : list Track;
  state : RecordingState
}.

Section Simulation.

Variable num : Type.
Context {N : Number num}.

Local Open Scope num_scope.

Definition Vec : Type := (num * num)%type.

(** What an instance does to the outside. *)
Inductive Event : Type :=
  | Drawn (center : Vec) (radius : num)            (* draw() repainted *)
  | Collided (cb : Callback)                       (* onCollision() *)
  | Completed (cb : Callback) (artifact : Blob).   (* onRecordingComplete(blob) *)

(** The fields of the class, grouped the way the source comments them.
    [CIRCLE_RADIUS] and [MAX_BALL_RADIUS] are readonly and computed from
    [WIDTH] and [HEIGHT] by the constructor: they are functions below. *)
Record Ball : Type := {
  ballRadius : num;
  ballCenter : Vec;
  ballVelocity : Vec;
  collisionPoints : list Vec;
  previousPositions : list Vec
}.

Record Tuning : Type := {
  GRAVITY : num;
  VELOCITY_INCREASE_FACTOR : num;
  VELOCITY_DECAY : num;
  BALL_GROWTH_RATE : num
}.

Record Driver : Type := {
  animationId : nat;
  running : bool;
  startTime : num;
  elapsedTime : num;
  isDragging : bool
}.

Record Capture : Type := {
  mediaRecorder : option nat;          (* a reference into [recorders] *)
  chunks : list Blob;
  onRecordingComplete : option Callback
}.

(** The part of the browser the methods act on. *)
Record Browser : Type := {
  recorders : list MediaRecorder;      (* every MediaRecorder constructed *)
  vp9Supported : bool;                 (* does MediaRecorder take the mimeType *)
  frames : list nat;                   (* pending requestAnimationFrame ids *)
  nextFrame : nat;                     (* the next id it hands out *)
  events : list Event                  (* trace, oldest first *)
}.

Record Sim : Type := {
  WIDTH : num;
  HEIGHT : num;
  simulationColor : num;               (* the hue of the hsl colour *)
  onCollision : option Callback;
  ball : Ball;
  tuning : Tuning;
  driver : Driver;
  capture : Capture;
  browser : Browser
}.

Definition INITIAL_BALL_RADIUS : num := nZ 5.
Definition MOTION_BLUR_STEPS : nat := 5.
Definition CIRCLE_RADIUS (s : Sim) : num :=
  nmin (WIDTH s) (HEIGHT s) / nZ 2 - nZ 125.
Definition MAX_BALL_RADIUS (s : Sim) : num := CIRCLE_RADIUS s - nZ 10.

(** *** Assignments to fields *)

Definition with_ball (f : Ball -> Ball) (s : Sim) : Sim :=
  {| WIDTH := WIDTH s; HEIGHT := HEIGHT s;
     simulationColor := simulationColor s; onCollision := onCollision s;
     ball := f (ball s); tuning := tuning s; driver := driver s;
     capture := capture s; browser := browser s |}.

Definition with_tuning (f : Tuning -> Tuning) (s : Sim) : Sim :=
  {| WIDTH := WIDTH s; HEIGHT := HEIGHT s;
     simulationColor := simulationColor s; onCollision := onCollision s;
     ball := ball s; tuning := f (tuning s); driver := driver s;
     capture := capture s; browser := browser s |}.

Definition with_driver (f : Driver -> Driver) (s : Sim) : Sim :=
  {| WIDTH := WIDTH s; HEIGHT := HEIGHT s;
     simulationColor := simulationColor s; onCollision := onCollision s;
     ball := ball s; tuning := tuning s; driver := f (driver s);
     capture := capture s; browser := browser s |}.

Definition with_capture (f : Capture -> Capture) (s : Sim) : Sim :=
  {| WIDTH := WIDTH s; HEIGHT := HEIGHT s;
     simulationColor := simulationColor s; onCollision := onCollision s;
     ball := ball s; tuning := tuning s; driver := driver s;
     capture := f (capture s); browser := browser s |}.

Definition with_browser (f : Browser -> Browser) (s : Sim) : Sim :=
  {| WIDTH := WIDTH s; HEIGHT := HEIGHT s;
     simulationColor := simulationColor s; onCollision := onCollision s;
     ball := ball s; tuning := tuning s; driver := driver s;
     capture := capture s; browser := f (browser s) |}.

Definition set_simulationColor (c : num) (s : Sim) : Sim :=
  {| WIDTH := WIDTH s; HEIGHT := HEIGHT s;
     simulationColor := c; onCollision := onCollision s;
     ball := ball s; tuning := tuning s; driver := driver s;
     capture := capture s; browser := browser s |}.

Definition set_ballRadius (r : num) : Sim -> Sim :=
  with_ball (fun b =>
    {| ballRadius := r; ballCenter := ballCenter b;
       ballVelocity := ballVelocity b; collisionPoints := collisionPoints b;
       previousPositions := previousPositions b |}).

Definition set_ballCenter (c : Vec) : Sim -> Sim :=
  with_ball (fun b =>
    {| ballRadius := ballRadius b; ballCenter := c;
       ballVelocity := ballVelocity b; collisionPoints := collisionPoints b;
       previousPositions := previousPositions b |}).

Definition set_ballVelocity (v : Vec) : Sim -> Sim :=
  with_ball (fun b =>
    {| ballRadius := ballRadius b; ballCenter := ballCenter b;
       ballVelocity := v; collisionPoints := collisionPoints b;
       previousPositions := previousPositions b |}).

Definition set_collisionPoints (l : list Vec) : Sim -> Sim :=
  with_ball (fun b =>
    {| ballRadius := ballRadius b; ballCenter := ballCenter b;
       ballVelocity := ballVelocity b; collisionPoints := l;
       previousPositions := previousPositions b |}).

Definition set_previousPositions (l : list Vec) : Sim -> Sim :=
  with_ball (fun b =>
    {| ballRadius := ballRadius b; ballCenter := ballCenter b;
       ballVelocity := ballVelocity b; collisionPoints := collisionPoints b;
       previousPositions := l |}).

Definition set_animationId (i : nat) : Sim -> Sim :=
  with_driver (fun d =>
    {| animationId := i; running := running d; startTime := startTime d;
       elapsedTime := elapsedTime d; isDragging := isDragging d |}).

Definition set_running (r : bool) : Sim -> Sim :=
  with_driver (fun d =>
    {| animationId := animationId d; running := r; startTime := startTime d;
       elapsedTime := elapsedTime d; isDragging := isDragging d |}).

Definition set_startTime (t : num) : Sim -> Sim :=
  with_driver (fun d =>
    {| animationId := animationId d; running := running d; startTime := t;
       elapsedTime := elapsedTime d; isDragging := isDragging d |}).

Definition set_elapsedTime (t : num) : Sim -> Sim :=
  with_driver (fun d =>
    {| animationId := animationId d; running := running d;
       startTime := startTime d; elapsedTime := t;
       isDragging := isDragging d |}).

Definition set_isDragging (g : bool) : Sim -> Sim :=
  with_driver (fun d =>
    {| animationId := animationId d; running := running d;
       startTime := startTime d; elapsedTime := elapsedTime d;
       isDragging := g |}).

Definition set_mediaRecorder (m : option nat) : Sim -> Sim :=
  with_capture (fun c =>
    {| mediaRecorder := m; chunks := chunks c;
       onRecordingComplete := onRecordingComplete c |}).

Definition set_chunks (l : list Blob) : Sim -> Sim :=
  with_capture (fun c =>
    {| mediaRecorder := mediaRecorder c; chunks := l;
       onRecordingComplete := onRecordingComplete c |}).

Definition set_onRecordingComplete (k : option Callback) : Sim -> Sim :=
  with_capture (fun c =>
    {| mediaRecorder := mediaRecorder c; chunks := chunks c;
       onRecordingComplete := k |}).

Definition set_recorders (l : list MediaRecorder) : Sim -> Sim :=
  with_browser (fun w =>
    {| recorders := l; vp9Supported := vp9Supported w; frames := frames w;
       nextFrame := nextFrame w; events := events w |}).

Definition set_frames (l : list nat) : Sim -> Sim :=
  with_browser (fun w =>
    {| recorders := recorders w; vp9Supported := vp9Supported w;
       frames := l; nextFrame := nextFrame w; events := events w |}).

Definition set_nextFrame (n : nat) : Sim -> Sim :=
  with_browser (fun w =>
    {| recorders := recorders w; vp9Supported := vp9Supported w;
       frames := frames w; nextFrame := n; events := events w |}).

Definition emit (e : Event) : Sim -> Sim :=
  with_browser (fun w =>
    {| recorders := recorders w; vp9Supported := vp9Supported w;
       frames := frames w; nextFrame := nextFrame w;
       events := events w ++ [e] |}).

(** *** reset and the tuning setters (source lines 125-150)

    [now] is the reading of [performance.now()] and [rnd] the draw of
    [Math.random()] the call makes. *)

Definition generateRandomColor (rnd : num) : num := rnd * nZ 360.

Definition reset (now rnd : num) (s : Sim) : Sim :=
  let s := set_ballRadius INITIAL_BALL_RADIUS s in
  let s := set_ballCenter (WIDTH s / nZ 2, HEIGHT s / lit 27 10) s in
  let s := set_ballVelocity (lit 8 10, lit 8 10) s in
  let s := set_collisionPoints [] s in
  let s := set_previousPositions [] s in
  let s := set_startTime now s in
  let s := set_elapsedTime (nZ 0) s in
  set_simulationColor (generateRandomColor rnd) s.

Definition setGravity (value : num) : Sim -> Sim :=
  with_tuning (fun t =>
    {| GRAVITY := value;
       VELOCITY_INCREASE_FACTOR := VELOCITY_INCREASE_FACTOR t;
       VELOCITY_DECAY := VELOCITY_DECAY t;
       BALL_GROWTH_RATE := BALL_GROWTH_RATE t |}).

Definition setVelocityIncrease (value : num) : Sim -> Sim :=
  with_tuning (fun t =>
    {| GRAVITY := GRAVITY t;
       VELOCITY_INCREASE_FACTOR := nZ 1 + value;
       VELOCITY_DECAY := VELOCITY_DECAY t;
       BALL_GROWTH_RATE := BALL_GROWTH_RATE t |}).

Definition setVelocityDecay (value : num) : Sim -> Sim :=
  with_tuning (fun t =>
    {| GRAVITY := GRAVITY t;
       VELOCITY_INCREASE_FACTOR := VELOCITY_INCREASE_FACTOR t;
       VELOCITY_DECAY := value;
       BALL_GROWTH_RATE := BALL_GROWTH_RATE t |}).

Definition setBallGrowthRate (value : num) : Sim -> Sim :=
  with_tuning (fun t =>
    {| GRAVITY := GRAVITY t;
       VELOCITY_INCREASE_FACTOR := VELOCITY_INCREASE_FACTOR t;
       VELOCITY_DECAY := VELOCITY_DECAY t;
       BALL_GROWTH_RATE := nZ 1 + value |}).

(** *** update (source lines 152-225)

    One assignment of the source per [let]; [x ** 2] is [x * x].  A
    statement [if (c) { f = e }] assigns [f] the value [if c then e else f]:
    the field keeps its value when the test fails. *)

Definition circleCenter (s : Sim) : Vec := (WIDTH s / nZ 2, HEIGHT s / nZ 2).

Definition update (now : num) (s : Sim) : Sim :=
  let s := set_elapsedTime ((now - startTime (driver s)) / nZ 1000) s in
  let s := set_previousPositions
             (previousPositions (ball s) ++ [ballCenter (ball s)]) s in
  let s := set_previousPositions
             (if (MOTION_BLUR_STEPS <? length (previousPositions (ball s)))%nat
              then tl (previousPositions (ball s))     (* shift() *)
              else previousPositions (ball s)) s in
  (* Apply gravity *)
  let s := set_ballVelocity (fst (ballVelocity (ball s)),
                             snd (ballVelocity (ball s)) + GRAVITY (tuning s)) s in
  (* Apply velocity decay *)
  let s := set_ballVelocity (fst (ballVelocity (ball s)) * VELOCITY_DECAY (tuning s),
                             snd (ballVelocity (ball s))) s in
  let s := set_ballVelocity (fst (ballVelocity (ball s)),
                             snd (ballVelocity (ball s)) * VELOCITY_DECAY (tuning s)) s in
  (* Update ball position *)
  let s := set_ballCenter (fst (ballCenter (ball s)) + fst (ballVelocity (ball s)),
                           snd (ballCenter (ball s))) s in
  let s := set_ballCenter (fst (ballCenter (ball s)),
                           snd (ballCenter (ball s)) + snd (ballVelocity (ball s))) s in
  (* Check for collision with circle *)
  let cc := circleCenter s in
  let dx := fst (ballCenter (ball s)) - fst cc in
  let dy := snd (ballCenter (ball s)) - snd cc in
  let distance := nsqrt (dx * dx + dy * dy) in
  if nleb (CIRCLE_RADIUS s - ballRadius (ball s)) distance then
    (* Calculate normal vector *)
    let nx := dx / distance in
    let ny := dy / distance in
    (* Calculate reflection *)
    let dot := fst (ballVelocity (ball s)) * nx + snd (ballVelocity (ball s)) * ny in
    let restitution := lit 95 100 in
    let s := set_ballVelocity
               ((fst (ballVelocity (ball s)) - nZ 2 * dot * nx) * restitution,
                snd (ballVelocity (ball s))) s in
    let s := set_ballVelocity
               (fst (ballVelocity (ball s)),
                (snd (ballVelocity (ball s)) - nZ 2 * dot * ny) * restitution) s in
    (* Increase ball size with limit *)
    let s := set_ballRadius
               (if nltb (ballRadius (ball s)) (MAX_BALL_RADIUS s)
                then nmin (ballRadius (ball s) * BALL_GROWTH_RATE (tuning s))
                          (MAX_BALL_RADIUS s)
                else ballRadius (ball s)) s in
    (* Velocity increase *)
    let s := set_ballVelocity
               (fst (ballVelocity (ball s)) * VELOCITY_INCREASE_FACTOR (tuning s),
                snd (ballVelocity (ball s))) s in
    let s := set_ballVelocity
               (fst (ballVelocity (ball s)),
                snd (ballVelocity (ball s)) * VELOCITY_INCREASE_FACTOR (tuning s)) s in
    (* Add minimum velocity to prevent stopping *)
    let minVelocity := nZ 1 in
    let currentVelocity :=
      nsqrt (fst (ballVelocity (ball s)) * fst (ballVelocity (ball s))
             + snd (ballVelocity (ball s)) * snd (ballVelocity (ball s))) in
    let scale := minVelocity / currentVelocity in
    let s := set_ballVelocity
               (if nltb currentVelocity minVelocity
                then (fst (ballVelocity (ball s)) * scale,
                      snd (ballVelocity (ball s)) * scale)
                else ballVelocity (ball s)) s in
    (* Calculate collision point *)
    let angle := natan2 dy dx in
    let collisionX := fst cc + CIRCLE_RADIUS s * ncos angle in
    let collisionY := snd cc + CIRCLE_RADIUS s * nsin angle in
    let s := set_collisionPoints
               (collisionPoints (ball s) ++ [(collisionX, collisionY)]) s in
    (* Adjust ball position to prevent sticking *)
    let s := set_ballCenter
               (fst cc + (CIRCLE_RADIUS s - ballRadius (ball s)) * ncos angle,
                snd (ballCenter (ball s))) s in
    let s := set_ballCenter
               (fst (ballCenter (ball s)),
                snd cc + (CIRCLE_RADIUS s - ballRadius (ball s)) * nsin angle) s in
    (* Trigger collision callback *)
    match onCollision s with
    | Some cb => emit (Collided cb) s
    | None => s
    end
  else s.

(** *** The animation driver (source lines 227-334)

    [draw] repaints the canvas from the current state; the trace keeps
    where and how large it drew the ball. *)

Definition draw (s : Sim) : Sim :=
  emit (Drawn (ballCenter (ball s)) (ballRadius (ball s))) s.

(** [requestAnimationFrame] hands out a fresh id and queues the callback;
    [cancelAnimationFrame] drops the id from the queue. *)
Definition requestAnimationFrame (s : Sim) : nat * Sim :=
  let id := nextFrame (browser s) in
  (id, set_nextFrame (S id) (set_frames (frames (browser s) ++ [id]) s)).

Definition cancelAnimationFrame (id : nat) (s : Sim) : Sim :=
  set_frames (remove Nat.eq_dec id (frames (browser s))) s.

Definition animate (now : num) (s : Sim) : Sim :=
  if negb (running (driver s)) then s
  else
    let s := update now s in
    let s := draw s in
    let (id, s) := requestAnimationFrame s in
    set_animationId id s.

(** [start] reads the clock itself ([now]) and again inside the tick it
    runs ([now']). *)
Definition start (now now' : num) (s : Sim) : Sim :=
  let s := if negb (running (driver s))
           then set_startTime
                  (now - elapsedTime (driver s) * nZ 1000) s
           else s in
  let s := set_running true s in
  animate now' s.

Definition stop (s : Sim) : Sim :=
  let s := set_running false s in
  cancelAnimationFrame (animationId (driver s)) s.

Definition isRunning (s : Sim) : bool := running (driver s).

(** The browser runs a queued frame callback: the callback is [animate]. *)
Definition frame (id : nat) (now : num) (s : Sim) : Sim :=
  if existsb (Nat.eqb id) (frames (browser s))
  then animate now (cancelAnimationFrame id s)
  else s.

Definition handleMouseDown (x y : num) (s : Sim) : Sim :=
  let dx := x - fst (ballCenter (ball s)) in
  let dy := y - snd (ballCenter (ball s)) in
  let distance := nsqrt (dx * dx + dy * dy) in
  if nleb distance (ballRadius (ball s)) then
    let s := set_isDragging true s in
    stop s
  else s.

Definition handleMouseMove (x y : num) (s : Sim) : Sim :=
  if isDragging (driver s) then
    let s := set_ballCenter (x, snd (ballCenter (ball s))) s in
    let s := set_ballCenter (fst (ballCenter (ball s)), y) s in
    let s := set_ballVelocity (nZ 0, nZ 0) s in
    draw s
  else s.

Definition handleMouseUp (now now' : num) (s : Sim) : Sim :=
  if isDragging (driver s) then
    let s := set_isDragging false s in
    start now now' s
  else s.

(** *** The capture session (source lines 68-119)

    [new MediaRecorder] throws when the browser does not take the
    requested mimeType: the methods that construct one return [None] then. *)

Definition getAudioTracks (m : list Track) : list Track :=
  filter (fun t => match t with AudioTrack _ => true | VideoTrack _ => false end) m.

Definition setupRecording (audioStream : option (list Track)) (s : Sim)
  : option Sim :=
  let videoStream := [VideoTrack 60] in
  let tracks := videoStream in
  let tracks :=
    match audioStream with
    | Some a =>
        if (0 <? length (getAudioTracks a))%nat
        then tracks ++ getAudioTracks a else tracks
    | None => tracks
    end in
  if vp9Supported (browser s) then
    let r := {| stream := tracks; state := inactive |} in
    let s' := set_recorders (recorders (browser s) ++ [r]) s in
    Some (set_mediaRecorder (Some (length (recorders (browser s)))) s')
  else None.

Fixpoint setState (i : nat) (st : RecordingState) (l : list MediaRecorder)
  : list MediaRecorder :=
  match l, i with
  | [], _ => []
  | r :: l', O => {| stream := stream r; state := st |} :: l'
  | r :: l', S j => r :: setState j st l'
  end.

Definition stateOf (i : nat) (s : Sim) : option RecordingState :=
  option_map state (nth_error (recorders (browser s)) i).

Definition startRecording (onComplete : option Callback)
    (audioStream : option (list Track)) (s : Sim) : option Sim :=
  match setupRecording audioStream s with
  | None => None
  | Some s =>
      match mediaRecorder (capture s) with
      | Some i =>
          match stateOf i s with
          | Some inactive =>
              let s := set_chunks [] s in
              let s := set_onRecordingComplete onComplete s in
              Some (set_recorders
                      (setState i recording (recorders (browser s))) s)
          | _ => Some s
          end
      | None => Some s
      end
  end.

(** [MediaRecorder.stop()] makes the recorder inactive; the browser then
    calls [ondataavailable] with what it gathered and [onstop]. *)
Definition stopRecording (s : Sim) : Sim :=
  match mediaRecorder (capture s) with
  | Some i =>
      match stateOf i s with
      | Some recording =>
          set_recorders (setState i inactive (recorders (browser s))) s
      | _ => s
      end
  | None => s
  end.

(** The two handlers [setupRecording] installs on every recorder.  They
    close over the instance, not over the recorder they sit on. *)
Definition ondataavailable (data : Blob) (s : Sim) : Sim :=
  if (0 <? length data)%nat
  then set_chunks (chunks (capture s) ++ [data]) s
  else s.

Definition onstop (s : Sim) : Sim :=
  let finalBlob : Blob := concat (chunks (capture s)) in
  let s := match onRecordingComplete (capture s) with
           | Some cb => emit (Completed cb finalBlob) s
           | None => s
           end in
  set_chunks [] s.

(** *** The constructor (source lines 37-57)

    [hasContext] says whether [canvas.getContext('2d')] gave a context;
    the colour is drawn twice, by the constructor and by [reset]. *)
Definition blank (width height : num) (onCollision : option Callback)
    (vp9 : bool) (rnd : num) : Sim :=
  {| WIDTH := width; HEIGHT := height;
     simulationColor := generateRandomColor rnd;
     onCollision := onCollision;
     (* the ball's fields are unassigned until [reset] *)
     ball := {| ballRadius := INITIAL_BALL_RADIUS;
                ballCenter := (nZ 0, nZ 0);
                ballVelocity := (nZ 0, nZ 0);
                collisionPoints := []; previousPositions := [] |};
     tuning := {| GRAVITY := lit 4 10;
                  VELOCITY_INCREASE_FACTOR := lit 102 100;
                  VELOCITY_DECAY := lit 9995 10000;
                  BALL_GROWTH_RATE := lit 1015 1000 |};
     driver := {| animationId := 0; running := false;
                  startTime := nZ 0; elapsedTime := nZ 0;
                  isDragging := false |};
     capture := {| mediaRecorder := None; chunks := [];
                   onRecordingComplete := None |};
     browser := {| recorders := []; vp9Supported := vp9;
                   frames := []; nextFrame := 1; events := [] |} |}.

Definition construct (width height : num) (hasContext : bool)
    (onCollision : option Callback) (vp9 : bool) (now rnd rnd' : num)
  : option Sim :=
  if hasContext
  then Some (reset now rnd' (blank width height onCollision vp9 rnd))
  else None.

(** ** The tick in the steps of the specification (section 4.1)

    The same tick, cut into the steps the specification numbers.  [update]
    above is the source; [update_tick] below shows the two agree. *)

Definition readClock (now : num) (s : Sim) : Sim :=
  set_elapsedTime ((now - startTime (driver s)) / nZ 1000) s.

Definition recordTrail (s : Sim) : Sim :=
  let l := previousPositions (ball s) ++ [ballCenter (ball s)] in
  set_previousPositions
    (if (MOTION_BLUR_STEPS <? length l)%nat then tl l else l) s.

Definition applyGravity (s : Sim) : Sim :=
  set_ballVelocity (fst (ballVelocity (ball s)),
                    snd (ballVelocity (ball s)) + GRAVITY (tuning s)) s.

Definition applyDecay (s : Sim) : Sim :=
  set_ballVelocity (fst (ballVelocity (ball s)) * VELOCITY_DECAY (tuning s),
                    snd (ballVelocity (ball s)) * VELOCITY_DECAY (tuning s)) s.

Definition integrate (s : Sim) : Sim :=
  set_ballCenter (fst (ballCenter (ball s)) + fst (ballVelocity (ball s)),
                  snd (ballCenter (ball s)) + snd (ballVelocity (ball s))) s.

(** The state the collision test looks at. *)
Definition preCollision (now : num) (s : Sim) : Sim :=
  integrate (applyDecay (applyGravity (recordTrail (readClock now s)))).

Definition offset (s : Sim) : Vec :=
  (fst (ballCenter (ball s)) - fst (circleCenter s),
   snd (ballCenter (ball s)) - snd (circleCenter s)).

Definition norm (v : Vec) : num := nsqrt (fst v * fst v + snd v * snd v).

Definition distance (s : Sim) : num := norm (offset s).

Definition speed (s : Sim) : num := norm (ballVelocity (ball s)).

Definition collides (s : Sim) : bool :=
  nleb (CIRCLE_RADIUS s - ballRadius (ball s)) (distance s).

Definition normal (s : Sim) : Vec :=
  (fst (offset s) / distance s, snd (offset s) / distance s).

Definition dotp (a b : Vec) : num := fst a * fst b + snd a * snd b.

Definition restitution : num := lit 95 100.

Definition reflectVelocity (n : Vec) (s : Sim) : Sim :=
  let v := ballVelocity (ball s) in
  set_ballVelocity ((fst v - nZ 2 * dotp v n * fst n) * restitution,
                    (snd v - nZ 2 * dotp v n * snd n) * restitution) s.

Definition growBall (s : Sim) : Sim :=
  set_ballRadius
    (if nltb (ballRadius (ball s)) (MAX_BALL_RADIUS s)
     then nmin (ballRadius (ball s) * BALL_GROWTH_RATE (tuning s))
               (MAX_BALL_RADIUS s)
     else ballRadius (ball s)) s.

Definition boostVelocity (s : Sim) : Sim :=
  set_ballVelocity
    (fst (ballVelocity (ball s)) * VELOCITY_INCREASE_FACTOR (tuning s),
     snd (ballVelocity (ball s)) * VELOCITY_INCREASE_FACTOR (tuning s)) s.

Definition enforceMinVelocity (s : Sim) : Sim :=
  set_ballVelocity
    (if nltb (speed s) (nZ 1)
     then (fst (ballVelocity (ball s)) * (nZ 1 / speed s),
           snd (ballVelocity (ball s)) * (nZ 1 / speed s))
     else ballVelocity (ball s)) s.

Definition markCollision (angle : num) (s : Sim) : Sim :=
  set_collisionPoints
    (collisionPoints (ball s)
     ++ [(fst (circleCenter s) + CIRCLE_RADIUS s * ncos angle,
          snd (circleCenter s) + CIRCLE_RADIUS s * nsin angle)]) s.

Definition reposition (angle : num) (s : Sim) : Sim :=
  set_ballCenter
    (fst (circleCenter s) + (CIRCLE_RADIUS s - ballRadius (ball s)) * ncos angle,
     snd (circleCenter s) + (CIRCLE_RADIUS s - ballRadius (ball s)) * nsin angle)
    s.

Definition notify (s : Sim) : Sim :=
  match onCollision s with
  | Some cb => emit (Collided cb) s
  | None => s
  end.

(** The steps from the reflection to the velocity floor. *)
Definition bounce (s : Sim) : Sim :=
  enforceMinVelocity (boostVelocity (growBall (reflectVelocity (normal s) s))).

Definition respond (s : Sim) : Sim :=
  let angle := natan2 (snd (offset s)) (fst (offset s)) in
  notify (reposition angle (markCollision angle (bounce s))).

Definition tick (now : num) (s : Sim) : Sim :=
  let s1 := preCollision now s in
  if collides s1 then respond s1 else s1.

(** ** Notions the statements use *)

(** The end of [animate], after the tick gave [u]: repaint and request the
    next frame. *)
Definition nextFrameOf (s u : Sim) : Sim :=
  set_animationId (nextFrame (browser s))
    (set_nextFrame (S (nextFrame (browser s)))
       (set_frames (frames (browser s) ++ [nextFrame (browser s)]) (draw u))).

(** The pointer is on the ball: the test of [handleMouseDown]. *)
Definition pointerOnBall (x y : num) (s : Sim) : bool :=
  nleb (norm (x - fst (ballCenter (ball s)), y - snd (ballCenter (ball s))))
       (ballRadius (ball s)).

Fixpoint resets (inputs : list (num * num)) (s : Sim) : Sim :=
  match inputs with
  | [] => s
  | (now, rnd) :: rest => resets rest (reset now rnd s)
  end.

Definition initialBall (s : Sim) : Ball :=
  {| ballRadius := INITIAL_BALL_RADIUS;
     ballCenter := (WIDTH s / nZ 2, HEIGHT s / lit 27 10);
     ballVelocity := (lit 8 10, lit 8 10);
     collisionPoints := [];
     previousPositions := [] |}.

Definition andThen {A B : Type} (m : option A) (f : A -> option B) : option B :=
  match m with Some a => f a | None => None end.

(** A session started with callback 1 that has buffered one chunk. *)
Definition recordingSession (w h now rnd : num) : option Sim :=
  option_map (ondataavailable [10; 20; 30]%nat)
    (startRecording (Some 1%nat) None (reset now rnd (blank w h None true rnd))).

(** What a capture session is, seen from outside: the recorder the instance
    holds, its buffer, its callback and the state of every recorder. *)
Definition session (s : Sim)
  : option nat * list Blob * option Callback * list RecordingState :=
  (mediaRecorder (capture s), chunks (capture s),
   onRecordingComplete (capture s), map state (recorders (browser s))).

(** The radius after the growth step. *)
Definition grownRadius (s : Sim) : num :=
  if nltb (ballRadius (ball s)) (MAX_BALL_RADIUS s)
  then nmin (ballRadius (ball s) * BALL_GROWTH_RATE (tuning s))
            (MAX_BALL_RADIUS s)
  else ballRadius (ball s).

Definition collisionAngle (s : Sim) : num :=
  natan2 (snd (offset s)) (fst (offset s)).

(** ** Runs of an instance

    What the application and the browser do to an instance, one call at a
    time: the public methods, a frame callback the browser runs, and the two
    recorder events.  A [startRecording] that throws leaves the instance as
    it was. *)

Inductive Call : Type :=
  | CallReset (now rnd : num)
  | CallSetGravity (value : num)
  | CallSetVelocityIncrease (value : num)
  | CallSetVelocityDecay (value : num)
  | CallSetBallGrowthRate (value : num)
  | CallStart (now now' : num)
  | CallStop
  | CallFrame (id : nat) (now : num)
  | CallMouseDown (x y : num)
  | CallMouseMove (x y : num)
  | CallMouseUp (now now' : num)
  | CallStartRecording (onComplete : option Callback)
                       (audioStream : option (list Track))
  | CallStopRecording
  | CallDataAvailable (data : Blob)
  | CallRecorderStopped.

Definition call (c : Call) (s : Sim) : Sim :=
  match c with
  | CallReset now rnd => reset now rnd s
  | CallSetGravity v => setGravity v s
  | CallSetVelocityIncrease v => setVelocityIncrease v s
  | CallSetVelocityDecay v => setVelocityDecay v s
  | CallSetBallGrowthRate v => setBallGrowthRate v s
  | CallStart now now' => start now now' s
  | CallStop => stop s
  | CallFrame id now => frame id now s
  | CallMouseDown x y => handleMouseDown x y s
  | CallMouseMove x y => handleMouseMove x y s
  | CallMouseUp now now' => handleMouseUp now now' s
  | CallStartRecording k a =>
      match startRecording k a s with Some s' => s' | None => s end
  | CallStopRecording => stopRecording s
  | CallDataAvailable d => ondataavailable d s
  | CallRecorderStopped => onstop s
  end.

Definition calls (cs : list Call) (s : Sim) : Sim :=
  fold_left (fun s c => call c s) cs s.

(** Ticks at the clock readings [nows], pointer moves through [ps], and the
    recorder delivering the payloads [ds]. *)
Definition updates (nows : list num) (s : Sim) : Sim :=
  fold_left (fun s now => update now s) nows s.

Definition moves (ps : list Vec) (s : Sim) : Sim :=
  fold_left (fun s p => handleMouseMove (fst p) (snd p) s) ps s.

Definition deliver (ds : list Blob) (s : Sim) : Sim :=
  fold_left (fun s d => ondataavailable d s) ds s.

(** The point [update] records for a collision seen in state [s]. *)
Definition collisionMark (s : Sim) : Vec :=
  (fst (circleCenter s) + CIRCLE_RADIUS s * ncos (collisionAngle s),
   snd (circleCenter s) + CIRCLE_RADIUS s * nsin (collisionAngle s)).

(** How often the collision callback was called in a trace. *)
Definition collisionCalls (es : list Event) : nat :=
  length (filter (fun e => match e with Collided _ => true | _ => false end) es).

(** Frame ids are fresh: no id is pending twice and every pending id was
    handed out before. *)
Definition framesFresh (s : Sim) : Prop :=
  NoDup (frames (browser s))
  /\ Forall (fun id => (id < nextFrame (browser s))%nat) (frames (browser s)).

(** The recorder the instance holds is one the browser constructed. *)
Definition recorderKnown (s : Sim) : Prop :=
  match mediaRecorder (capture s) with
  | Some i => (i < length (recorders (browser s)))%nat
  | None => True
  end.

End Simulation.

Arguments restitution {num N}.
Arguments INITIAL_BALL_RADIUS {num N}.
Arguments Drawn {num}.
Arguments Collided {num}.
Arguments Completed {num}.
Arguments CallStop {num}.
Arguments CallStartRecording {num}.
Arguments CallStopRecording {num}.
Arguments CallDataAvailable {num}.
Arguments CallRecorderStopped {num}.

(** ** Instances the statements are tried on *)

Module Scene.

Local Open Scope R_scope.

#[local] Existing Instance RealNum.number.

(** An instance on a [width] x [height] surface, with the default boost and
    growth factors. *)
Definition instance (width height : R) (center velocity : R * R)
    (gravity decay : R) (dragging : bool) : Sim R :=
  {| WIDTH := width; HEIGHT := height; simulationColor := 0;
     onCollision := Some 7%nat;
     ball := {| ballRadius := 5; ballCenter := center;
                ballVelocity := velocity;
                collisionPoints := []; previousPositions := [] |};
     tuning := {| GRAVITY := gravity;
                  VELOCITY_INCREASE_FACTOR := 102 / 100;
                  VELOCITY_DECAY := decay;
                  BALL_GROWTH_RATE := 1015 / 1000 |};
     driver := {| animationId := 0; running := false; startTime := 0;
                  elapsedTime := 0; isDragging := dragging |};
     capture := {| mediaRecorder := None; chunks := [];
                   onRecordingComplete := None |};
     browser := {| recorders := []; vp9Supported := true; frames := [];
                   nextFrame := 1; events := [] |} |}.

(** On the application's 1080 x 1920 surface: falling near the middle, at
    rest below the boundary, held by the pointer, and falling with a negative
    decay factor set through [setVelocityDecay]. *)
Definition falling : Sim R :=
  instance 1080 1920 (540, 700) (8 / 10, 8 / 10) (4 / 10) (9995 / 10000) false.
Definition outside : Sim R :=
  instance 1080 1920 (540, 1900) (0, 0) 0 (9995 / 10000) false.
Definition held : Sim R :=
  instance 1080 1920 (540, 700) (0, 0) (4 / 10) (9995 / 10000) true.
Definition reversing : Sim R := setVelocityDecay (- (1 / 2)) falling.

(** A new instance on a 256 x 256 surface: the boundary radius is 3, below
    the initial ball radius 5. *)
Definition cramped : Sim R := reset 0 0 (blank 256 256 (Some 7%nat) true 0).

(** Below the boundary and moving on, at speed 5 and without decay. *)
Definition leaving : Sim R :=
  instance 1080 1920 (540, 1900) (3, 4) 0 1 false.

(** [falling] with the loop running and its first frame pending, and
    [falling] holding a recorder that records. *)
Definition looping : Sim R := nextFrameOf falling (set_running true falling).
Definition capturing : Sim R :=
  set_mediaRecorder (Some 0%nat)
    (set_recorders [{| stream := [VideoTrack 60]; state := recording |}]
       falling).

(** The surface is large enough for a new ball, and the ball is no larger
    than the growth step lets it become. *)
Definition ballFits (s : Sim R) : Prop :=
  INITIAL_BALL_RADIUS <= MAX_BALL_RADIUS s
  /\ ballRadius (ball s) <= MAX_BALL_RADIUS s.

(** The whole ball is within the boundary. *)
Definition inside (s : Sim R) : Prop :=
  distance s + ballRadius (ball s) <= CIRCLE_RADIUS s.



End Scene.

(** ** A drag at zero gravity, run on floats *)

Module ZeroGravityDrag.

Import PrimFloat.

Section Run.

Variable t : FloatNum.Trig.

#[local] Instance arithmetic : Number PrimFloat.float := FloatNum.number t.

Local Open Scope float_scope.

(** A new instance on the application's 1080 x 1920 surface, with the
    gravity slider at its minimum, 0. *)
Definition built : option (Sim PrimFloat.float) :=
  option_map (setGravity 0)
    (construct 1080 1920 true (Some 7%nat) true 0 0.5 0.25).

(** Press on the ball and drag it to (540, 100), outside the boundary of
    radius 415 around (540, 960). *)
Definition dragged : option (Sim PrimFloat.float) :=
  option_map
    (fun s => handleMouseMove 540 100 (handleMouseDown 540 (1920 / (27 / 10)) s))
    built.

(** Release: [handleMouseUp] restarts the loop and runs a tick. *)
Definition released : option (Sim PrimFloat.float) :=
  option_map (handleMouseUp 2000 2001) dragged.

End Run.

(** An instance on the same surface whose velocity is NaN.  No tick of it
    calls a trigonometric function; it is run with them fixed at angle 0. *)
Definition flat : FloatNum.Trig :=
  {| FloatNum.fcos := fun _ => 1%float; FloatNum.fsin := fun _ => 0%float;
     FloatNum.fatan2 := fun _ _ => 0%float |}.

Definition lost : Sim PrimFloat.float :=
  set_ballVelocity (nan, nan)
    (reset (N := arithmetic flat) 0%float 0.5%float
       (blank (N := arithmetic flat) 1080%float 1920%float (Some 7%nat) true
          0.25%float)).

End ZeroGravityDrag.

(** ** The application around an instance (App.tsx)

    The component keeps the instance in a ref and its own state in hooks.
    A handler is modelled by the state the component has once the updates
    the handler queued are applied; [setTextElements] is always given an
    updater function, applied to the texts of that moment. *)

(** The box [canvas.getBoundingClientRect()] reports. *)
Module DOMRect.

Record t (num : Type) : Type := {
  left : num;
  top : num;
  width : num;
  height : num
}.

End DOMRect.

(** A text label, with the fields the component reads and writes. *)
Module TextElement.

Record t (num : Type) : Type := {
  id : String.string;
  text : String.string;
  x : num;
  y : num;
  font : String.string;
  size : num;
  color : String.string;
  isDragging : bool;
  isBold : bool
}.

End TextElement.

(** The refs and hooks the handlers below use. *)
Module UI.

Record Canvas (num : Type) : Type := {
  width : num;
  height : num
}.

Record t (num : Type) : Type := {
  canvasRef : option (Canvas num);
  simulationRef : option (Sim num);
  isRunning : bool;
  isRecording : bool;
  textElements : list (TextElement.t num)
}.

End UI.

Module App.

Section App.

Variable num : Type.
Context {N : Number num}.

Local Open Scope num_scope.

Local Abbreviation State := (UI.t num).
Local Abbreviation Text := (TextElement.t num).

Record MouseEvent : Type := {
  clientX : num;
  clientY : num
}.

(** The instance in the ref is mutated in place. *)
Definition withSimulation (sim : Sim num) (a : State) : State :=
  {| UI.canvasRef := UI.canvasRef a; UI.simulationRef := Some sim;
     UI.isRunning := UI.isRunning a; UI.isRecording := UI.isRecording a;
     UI.textElements := UI.textElements a |}.

Definition setIsRunning (b : bool) (a : State) : State :=
  {| UI.canvasRef := UI.canvasRef a; UI.simulationRef := UI.simulationRef a;
     UI.isRunning := b; UI.isRecording := UI.isRecording a;
     UI.textElements := UI.textElements a |}.

Definition setIsRecording (b : bool) (a : State) : State :=
  {| UI.canvasRef := UI.canvasRef a; UI.simulationRef := UI.simulationRef a;
     UI.isRunning := UI.isRunning a; UI.isRecording := b;
     UI.textElements := UI.textElements a |}.

Definition setTextElements (f : list Text -> list Text) (a : State) : State :=
  {| UI.canvasRef := UI.canvasRef a; UI.simulationRef := UI.simulationRef a;
     UI.isRunning := UI.isRunning a; UI.isRecording := UI.isRecording a;
     UI.textElements := f (UI.textElements a) |}.

(** [{ ...text, isDragging: b }] and [{ ...text, x, y }]. *)
Definition withDragging (b : bool) (t : Text) : Text :=
  {| TextElement.id := TextElement.id t; TextElement.text := TextElement.text t;
     TextElement.x := TextElement.x t; TextElement.y := TextElement.y t;
     TextElement.font := TextElement.font t;
     TextElement.size := TextElement.size t;
     TextElement.color := TextElement.color t;
     TextElement.isDragging := b; TextElement.isBold := TextElement.isBold t |}.

Definition withPosition (x y : num) (t : Text) : Text :=
  {| TextElement.id := TextElement.id t; TextElement.text := TextElement.text t;
     TextElement.x := x; TextElement.y := y;
     TextElement.font := TextElement.font t;
     TextElement.size := TextElement.size t;
     TextElement.color := TextElement.color t;
     TextElement.isDragging := TextElement.isDragging t;
     TextElement.isBold := TextElement.isBold t |}.

(** Source lines 86-97.  [now] and [now'] are the clock readings of
    [start]. *)
Definition handlePlayPause (now now' : num) (a : State) : State :=
  match UI.simulationRef a with
  | None => a
  | Some sim =>
      if isRunning sim
      then setIsRunning false (withSimulation (stop sim) a)
      else setIsRunning true (withSimulation (start now now' sim) a)
  end.

(** Source lines 107-133.  [download] is the callback that saves the
    artifact; a [startRecording] that throws is caught and logged. *)
Definition handleRecording (download : Callback)
    (audioStream : option (list Track)) (a : State) : State :=
  match UI.simulationRef a, UI.canvasRef a with
  | Some sim, Some _ =>
      if negb (UI.isRecording a) then
        match startRecording (Some download) audioStream sim with
        | Some sim' => setIsRecording true (withSimulation sim' a)
        | None => a
        end
      else setIsRecording false (withSimulation (stopRecording sim) a)
  | _, _ => a
  end.

(** The pointer in canvas coordinates (source lines 278-280, 306-308). *)
Definition canvasPoint (c : UI.Canvas num) (rect : DOMRect.t num)
    (e : MouseEvent) : num * num :=
  ((clientX e - DOMRect.left rect) * (UI.width c / DOMRect.width rect),
   (clientY e - DOMRect.top rect) * (UI.height c / DOMRect.height rect)).

(** The box test of source lines 287-296.  [text.text.length] counts the
    UTF-16 code units of the label: a label is a string with one character
    per code unit. *)
Definition onText (x y : num) (t : Text) : bool :=
  let textWidth :=
    nZ (Z.of_nat (String.length (TextElement.text t)))
    * (TextElement.size t / nZ 2) in
  let textHeight := TextElement.size t in
  nleb (TextElement.x t - textWidth / nZ 2) x
  && nleb x (TextElement.x t + textWidth / nZ 2)
  && nleb (TextElement.y t - textHeight / nZ 2) y
  && nleb y (TextElement.y t + textHeight / nZ 2).

(** Source lines 275-301. *)
Definition handleMouseDown (rect : DOMRect.t num) (e : MouseEvent)
    (a : State) : State :=
  match UI.canvasRef a, UI.simulationRef a with
  | Some c, Some sim =>
      let (x, y) := canvasPoint c rect e in
      (* Allow dragging the ball *)
      let a := withSimulation (handleMouseDown x y sim) a in
      (* Handle text dragging *)
      setTextElements
        (map (fun text => if onText x y text then withDragging true text
                          else text)) a
  | _, _ => a
  end.

(** Source lines 303-319. *)
Definition handleMouseMove (rect : DOMRect.t num) (e : MouseEvent)
    (a : State) : State :=
  match UI.canvasRef a, UI.simulationRef a with
  | Some c, Some sim =>
      let (x, y) := canvasPoint c rect e in
      (* Update ball position if being dragged *)
      let a := withSimulation (handleMouseMove x y sim) a in
      (* Update text positions *)
      setTextElements
        (map (fun text => if TextElement.isDragging text
                          then withPosition x y text else text)) a
  | _, _ => a
  end.

(** Source lines 321-329; also bound to the pointer leaving the canvas. *)
Definition handleMouseUp (now now' : num) (a : State) : State :=
  let a := match UI.simulationRef a with
           | Some sim => withSimulation (handleMouseUp now now' sim) a
           | None => a
           end in
  setTextElements (map (withDragging false)) a.

(** The label a drag from [(x, y)] to [(x', y')] leaves of [t]. *)
Definition dragged (x y x' y' : num) (t : Text) : Text :=
  if onText x y t then withPosition x' y' t else t.

End App.

End App.

(** The page as the application shows it: the 1080 x 1920 canvas in a box
    of half that size, the loop running and shown running, the default
    label; and a pointer on the ball of [falling]. *)
Module Page.

Import String Scene.

Local Open Scope R_scope.

Definition label : TextElement.t R :=
  {| TextElement.id := "default"%string;
     TextElement.text := "@singing.ball"%string;
     TextElement.x := 540; TextElement.y := 960;
     TextElement.font := "Montserrat"%string; TextElement.size := 30;
     TextElement.color := "#FFFFFF"%string;
     TextElement.isDragging := false;
     TextElement.isBold := false |}.

Definition page : UI.t R :=
  {| UI.canvasRef := Some {| UI.width := 1080; UI.height := 1920 |};
     UI.simulationRef := Some looping;
     UI.isRunning := true; UI.isRecording := false;
     UI.textElements := [label] |}.

Definition box : DOMRect.t R :=
  {| DOMRect.left := 0; DOMRect.top := 0;
     DOMRect.width := 540; DOMRect.height := 960 |}.

Definition onBall : App.MouseEvent R :=
  {| App.clientX := 270; App.clientY := 350 |}.

Definition onLabel : App.MouseEvent R :=
  {| App.clientX := 270; App.clientY := 480 |}.

Definition elsewhere : App.MouseEvent R :=
  {| App.clientX := 100; App.clientY := 100 |}.

End Page.

(** * Theorems *)

Section SimulationFacts.

Variable num : Type.
Context {N : Number num}.

Local Open Scope num_scope.

Local Abbreviation Sim := (Sim num).
Local Abbreviation Vec := (Vec num).

(** ** What holds for every arithmetic *)

Lemma update_tick (now : num) (s : Sim) : update now s = tick now s.
Proof. vm_compute. reflexivity. Qed.

(** The two ways a tick ends. *)
Ltac tick_cases :=
  rewrite update_tick; unfold tick; cbv zeta;
  destruct (collides _) eqn:?;
  [ unfold respond, notify; cbv zeta; destruct (onCollision _) eqn:? | ].

(** A tick leaves the driver alone but for the elapsed time, and does not
    touch the frame queue. *)
Lemma update_driver (now : num) (s : Sim) :
  driver (update now s)
  = driver (set_elapsedTime ((now - startTime (driver s)) / nZ 1000) s).
Proof. tick_cases; reflexivity. Qed.

Lemma update_frames (now : num) (s : Sim) :
  frames (browser (update now s)) = frames (browser s)
  /\ nextFrame (browser (update now s)) = nextFrame (browser s).
Proof. tick_cases; split; reflexivity. Qed.

Lemma animate_tail (s u : Sim) :
  frames (browser u) = frames (browser s) ->
  nextFrame (browser u) = nextFrame (browser s) ->
  (let s1 := draw u in
   let (id, s2) := requestAnimationFrame s1 in set_animationId id s2)
  = nextFrameOf s u.
Proof.
  intros Hf Hn.
  change (nextFrameOf u u = nextFrameOf s u).
  unfold nextFrameOf. rewrite Hf, Hn. reflexivity.
Qed.

Lemma animate_running (now : num) (s : Sim) :
  running (driver s) = true ->
  animate now s = nextFrameOf s (update now s).
Proof.
  intros Hr. unfold animate. rewrite Hr.
  apply (animate_tail s (update now s)); apply update_frames.
Qed.

Lemma animate_stopped (now : num) (s : Sim) :
  running (driver s) = false -> animate now s = s.
Proof. intros Hr. unfold animate. rewrite Hr. reflexivity. Qed.

Lemma nextFrameOf_driver (s u : Sim) :
  running (driver (nextFrameOf s u)) = running (driver u)
  /\ isDragging (driver (nextFrameOf s u)) = isDragging (driver u)
  /\ animationId (driver (nextFrameOf s u)) = nextFrame (browser s)
  /\ frames (browser (nextFrameOf s u))
     = frames (browser s) ++ [nextFrame (browser s)]
  /\ ball (nextFrameOf s u) = ball u.
Proof. repeat split; reflexivity. Qed.

Lemma handleMouseDown_on (x y : num) (s : Sim) :
  pointerOnBall x y s = true ->
  handleMouseDown x y s = stop (set_isDragging true s).
Proof.
  intros H. unfold handleMouseDown. cbv zeta.
  change (nleb _ (ballRadius (ball s))) with (pointerOnBall x y s).
  rewrite H. reflexivity.
Qed.

Lemma handleMouseUp_dragging (now now' : num) (s : Sim) :
  isDragging (driver s) = true ->
  handleMouseUp now now' s
  = animate now'
      (set_running true
         (if negb (running (driver s))
          then set_startTime (now - elapsedTime (driver s) * nZ 1000)
                 (set_isDragging false s)
          else set_isDragging false s)).
Proof.
  intros H. unfold handleMouseUp. rewrite H. unfold start. cbv zeta.
  reflexivity.
Qed.

(** Claim C10.  While a drag is active, [handleMouseUp] leaves the instance
    running, whatever [running] was before (also after an explicit [stop]);
    while no drag is active it changes nothing; [handleMouseDown] on the ball
    leaves the instance stopped, also when it was stopped already, with the
    drag active and the frame it had requested no longer pending. *)
Theorem release_resumes_press_stops (s : Sim) (now now' x y : num) :
  (isDragging (driver s) = true ->
   isRunning (handleMouseUp now now' s) = true)
  /\ (isDragging (driver s) = false -> handleMouseUp now now' s = s)
  /\ (pointerOnBall x y s = true ->
      isRunning (handleMouseDown x y s) = false
      /\ isDragging (driver (handleMouseDown x y s)) = true
      /\ ~ In (animationId (driver s)) (frames (browser (handleMouseDown x y s)))).
Proof.
  split; [| split].
  - intros H. rewrite (handleMouseUp_dragging now now' s H).
    set (r := set_running true _).
    rewrite (animate_running now' r eq_refl). unfold isRunning.
    destruct (nextFrameOf_driver r (update now' r)) as [-> _].
    rewrite update_driver. reflexivity.
  - intros H. unfold handleMouseUp. rewrite H. reflexivity.
  - intros H. rewrite (handleMouseDown_on x y s H).
    repeat split; try reflexivity.
    unfold stop, cancelAnimationFrame. cbv zeta.
    apply remove_In.
Qed.

(** *** The drag *)

(** Claim C7.  From any state, a press on the ball, a move to [(px, py)] and
    a release: when the release arrives the ball is at [(px, py)] with
    velocity (0, 0), the drag is active and the loop stopped.  The release
    clears the drag, marks the instance running from a state [resumed] that
    still has the ball at [(px, py)] at rest, and resumes the loop: it runs
    [animate] on [resumed] at once (so the ball has made the first tick from
    there when [handleMouseUp] returns) and leaves the next frame pending. *)
Theorem drag_then_release (s : Sim) (x y px py now now' : num) :
  pointerOnBall x y s = true ->
  let moved := handleMouseMove px py (handleMouseDown x y s) in
  let resumed :=
    set_running true
      (set_startTime (now - elapsedTime (driver moved) * nZ 1000)
         (set_isDragging false moved)) in
  let released := handleMouseUp now now' moved in
  ballCenter (ball moved) = (px, py)
  /\ ballVelocity (ball moved) = (nZ 0, nZ 0)
  /\ isDragging (driver moved) = true
  /\ isRunning moved = false
  /\ ballCenter (ball resumed) = (px, py)
  /\ ballVelocity (ball resumed) = (nZ 0, nZ 0)
  /\ released = animate now' resumed
  /\ ball released = ball (update now' resumed)
  /\ isDragging (driver released) = false
  /\ isRunning released = true
  /\ In (animationId (driver released)) (frames (browser released)).
Proof.
  intros H. rewrite (handleMouseDown_on x y s H).
  intros moved resumed released.
  assert (Hrel : released = animate now' resumed).
  { unfold released. rewrite handleMouseUp_dragging by reflexivity.
    reflexivity. }
  assert (Hrun : running (driver resumed) = true) by reflexivity.
  rewrite Hrel, (animate_running now' resumed Hrun).
  destruct (nextFrameOf_driver resumed (update now' resumed))
    as (Hr & Hd & Hi & Hf & Hb).
  unfold isRunning. rewrite Hr, Hd, Hi, Hf, Hb, update_driver.
  repeat split; try reflexivity.
  apply in_or_app. right. left. reflexivity.
Qed.


(** *** reset *)

Lemma reset_ball (now rnd : num) (s : Sim) :
  ball (reset now rnd s) = initialBall s.
Proof. vm_compute. reflexivity. Qed.

Lemma reset_absorbs (now rnd now' rnd' : num) (s : Sim) :
  reset now' rnd' (reset now rnd s) = reset now' rnd' s.
Proof. vm_compute. reflexivity. Qed.

Lemma resets_last (rest : list (num * num)) (now rnd : num) (s : Sim) :
  exists now' rnd', resets ((now, rnd) :: rest) s = reset now' rnd' s.
Proof.
  revert now rnd s. induction rest as [| [n r] rest IH]; intros now rnd s.
  - exists now, rnd. apply eq_refl.
  - destruct (IH n r (reset now rnd s)) as (n' & r' & E).
    exists n', r'.
    change (resets ((n, r) :: rest) (reset now rnd s) = reset n' r' s).
    rewrite E. apply reset_absorbs.
Qed.

(** Claim C8.  One or more calls of [reset] in a row, with whatever clock
    readings and random draws, leave the ball as a single call does: initial
    radius, the same center and velocity, no trail and no collision marks,
    whatever the state before.  A second call with the same inputs changes
    nothing, and two results differ at most in the colour and in the clock
    origin [startTime] the call reads. *)
Theorem reset_idempotent (s : Sim) (now rnd : num) (rest : list (num * num)) :
  ball (resets ((now, rnd) :: rest) s) = ball (reset now rnd s)
  /\ ball (reset now rnd s) = initialBall s
  /\ reset now rnd (reset now rnd s) = reset now rnd s
  /\ (forall now' rnd' t c,
        set_simulationColor c (set_startTime t (reset now' rnd' (reset now rnd s)))
        = set_simulationColor c (set_startTime t (reset now rnd s))).
Proof.
  split; [| split; [| split]].
  - destruct (resets_last rest now rnd s) as (n' & r' & ->).
    rewrite !reset_ball. reflexivity.
  - apply reset_ball.
  - apply reset_absorbs.
  - intros now' rnd' t c. rewrite reset_absorbs.
    vm_compute. reflexivity.
Qed.


(** *** The order of a tick *)

Lemma trail_shift (l : list Vec) (c : Vec) :
  (if (MOTION_BLUR_STEPS <? length (l ++ [c]))%nat then tl (l ++ [c]) else l ++ [c])
  = (if (MOTION_BLUR_STEPS <=? length l)%nat then tl l else l) ++ [c].
Proof.
  rewrite length_app, Nat.add_1_r.
  change (MOTION_BLUR_STEPS <? S (length l))%nat
    with (MOTION_BLUR_STEPS <=? length l)%nat.
  destruct (MOTION_BLUR_STEPS <=? length l)%nat eqn:E; [| reflexivity].
  destruct l; [discriminate | reflexivity].
Qed.

(** Claim C4.  Every [update] first appends the center it starts from to the
    trail (dropping the oldest entry when the trail already holds 5), then
    adds GRAVITY to vy, then multiplies both components by the decay factor,
    then adds that velocity to the center; radius, marks and trace are
    untouched so far.  It then responds to a collision exactly when the
    distance of the new center from the boundary center is at least
    [CIRCLE_RADIUS - ballRadius], and otherwise stops there. *)
Theorem update_order (now : num) (s : Sim) :
  let b := ball s in
  let t := tuning s in
  let v := (fst (ballVelocity b) * VELOCITY_DECAY t,
            (snd (ballVelocity b) + GRAVITY t) * VELOCITY_DECAY t) in
  let s1 := preCollision now s in
  previousPositions (ball s1)
  = (if (MOTION_BLUR_STEPS <=? length (previousPositions b))%nat
     then tl (previousPositions b) else previousPositions b)
    ++ [ballCenter b]
  /\ ballVelocity (ball s1) = v
  /\ ballCenter (ball s1) = (fst (ballCenter b) + fst v, snd (ballCenter b) + snd v)
  /\ ballRadius (ball s1) = ballRadius b
  /\ collisionPoints (ball s1) = collisionPoints b
  /\ events (browser s1) = events (browser s)
  /\ update now s
     = (if nleb (CIRCLE_RADIUS s - ballRadius b) (distance s1)
        then respond s1 else s1).
Proof.
  intros b t v s1.
  split; [| split; [| split; [| split; [| split; [| split]]]]].
  - rewrite <- trail_shift. vm_compute. reflexivity.
  - vm_compute. reflexivity.
  - vm_compute. reflexivity.
  - vm_compute. reflexivity.
  - vm_compute. reflexivity.
  - vm_compute. reflexivity.
  - rewrite update_tick. vm_compute. reflexivity.
Qed.

(** *** The capture session *)

Lemma nth_error_setState_same (l : list MediaRecorder) (r : MediaRecorder)
    (st : RecordingState) :
  nth_error (setState (length l) st (l ++ [r])) (length l)
  = Some {| stream := stream r; state := st |}.
Proof. induction l as [| x l IH]; [reflexivity | exact IH]. Qed.

Lemma nth_error_setState_other (l : list MediaRecorder) (r : MediaRecorder)
    (st : RecordingState) (i : nat) :
  (i < length l)%nat ->
  nth_error (setState (length l) st (l ++ [r])) i = nth_error l i.
Proof.
  revert i. induction l as [| x l IH]; intros i Hi; [inversion Hi |].
  destruct i as [| i]; [reflexivity |].
  apply IH. apply PeanoNat.lt_S_n. exact Hi.
Qed.

(** Whatever the state of the session, [startRecording] starts a new one when
    the browser can construct a recorder: the guard only ever sees the
    recorder [setupRecording] has just made. *)
Lemma startRecording_starts_anew (cb : option Callback)
    (a : option (list Track)) (s : Sim) :
  vp9Supported (browser s) = true ->
  exists s',
    startRecording cb a s = Some s'
    /\ mediaRecorder (capture s') = Some (length (recorders (browser s)))
    /\ chunks (capture s') = []
    /\ onRecordingComplete (capture s') = cb
    /\ stateOf (length (recorders (browser s))) s' = Some recording
    /\ forall i, (i < length (recorders (browser s)))%nat ->
                 stateOf i s' = stateOf i s.
Proof.
  intros Hv. unfold startRecording, setupRecording. cbv zeta. rewrite Hv.
  set (r := {| stream := _; state := inactive |}).
  set (l := recorders (browser s)).
  assert (Hi : stateOf (length l)
                 (set_mediaRecorder (Some (length l)) (set_recorders (l ++ [r]) s))
               = Some inactive).
  { unfold stateOf.
    change (option_map state (nth_error (l ++ [r]) (length l)) = Some inactive).
    rewrite nth_error_app2, Nat.sub_diag by apply le_n. reflexivity. }
  change (mediaRecorder (capture (set_mediaRecorder (Some (length l))
                                    (set_recorders (l ++ [r]) s))))
    with (Some (length l)).
  cbv iota. rewrite Hi.
  eexists. split; [reflexivity |].
  repeat apply conj; try reflexivity.
  - unfold stateOf.
    change (option_map state
              (nth_error (setState (length l) recording (l ++ [r])) (length l))
            = Some recording).
    rewrite nth_error_setState_same. reflexivity.
  - intros i Hlt. unfold stateOf.
    change (option_map state
              (nth_error (setState (length l) recording (l ++ [r])) i)
            = option_map state (nth_error l i)).
    rewrite nth_error_setState_other by exact Hlt. reflexivity.
Qed.

(** Claim C1, on the code.  With a session active (recorder 0 recording, one
    chunk buffered, callback 1), [startRecording] with callback 2 is not a
    no-op: [setupRecording] runs before the guard and puts a new, inactive
    recorder in [mediaRecorder], so the guard passes; the buffer is emptied,
    the callback replaced and a second recording started, while the first
    recorder keeps recording and [stopRecording] no longer reaches it. *)
Theorem startRecording_while_active (w h now rnd : num) :
  option_map (fun s => session s) (recordingSession w h now rnd)
  = Some (Some 0%nat, [[10; 20; 30]%nat], Some 1%nat, [recording])
  /\ option_map (fun s => session s)
       (andThen (recordingSession w h now rnd) (startRecording (Some 2%nat) None))
     = Some (Some 1%nat, [], Some 2%nat, [recording; recording])
  /\ option_map (fun s => session (stopRecording s))
       (andThen (recordingSession w h now rnd) (startRecording (Some 2%nat) None))
     = Some (Some 1%nat, [], Some 2%nat, [recording; inactive]).
Proof. repeat apply conj; vm_compute; reflexivity. Qed.

(** *** The collision response, field by field *)

Lemma notify_ball (s : Sim) : ball (notify s) = ball s.
Proof. unfold notify. destruct (onCollision s); reflexivity. Qed.

Lemma notify_canvas (s : Sim) :
  WIDTH (notify s) = WIDTH s /\ HEIGHT (notify s) = HEIGHT s.
Proof. unfold notify. destruct (onCollision s); split; reflexivity. Qed.

Lemma respond_radius (s : Sim) :
  ballRadius (ball (respond s)) = grownRadius s.
Proof. unfold respond. cbv zeta. rewrite notify_ball. vm_compute. reflexivity. Qed.

Lemma respond_center (s : Sim) :
  ballCenter (ball (respond s))
  = (fst (circleCenter s)
     + (CIRCLE_RADIUS s - grownRadius s) * ncos (collisionAngle s),
     snd (circleCenter s)
     + (CIRCLE_RADIUS s - grownRadius s) * nsin (collisionAngle s)).
Proof. unfold respond. cbv zeta. rewrite notify_ball. vm_compute. reflexivity. Qed.

Lemma respond_velocity (s : Sim) :
  ballVelocity (ball (respond s)) = ballVelocity (ball (bounce s)).
Proof. unfold respond. cbv zeta. rewrite notify_ball. vm_compute. reflexivity. Qed.

Lemma respond_canvas (s : Sim) :
  WIDTH (respond s) = WIDTH s /\ HEIGHT (respond s) = HEIGHT s.
Proof.
  unfold respond. cbv zeta.
  destruct (notify_canvas
              (reposition (natan2 (snd (offset s)) (fst (offset s)))
                 (markCollision (natan2 (snd (offset s)) (fst (offset s)))
                    (bounce s)))) as [-> ->].
  split; vm_compute; reflexivity.
Qed.

Lemma preCollision_static (now : num) (s : Sim) :
  WIDTH (preCollision now s) = WIDTH s
  /\ HEIGHT (preCollision now s) = HEIGHT s
  /\ ballRadius (ball (preCollision now s)) = ballRadius (ball s)
  /\ tuning (preCollision now s) = tuning s.
Proof. repeat apply conj; vm_compute; reflexivity. Qed.

Lemma bounce_velocity (s : Sim) :
  ballVelocity (ball (bounce s))
  = ballVelocity
      (ball (enforceMinVelocity (boostVelocity (reflectVelocity (normal s) s)))).
Proof. vm_compute. reflexivity. Qed.

Lemma reflectVelocity_velocity (n : Vec) (s : Sim) :
  ballVelocity (ball (reflectVelocity n s))
  = ((fst (ballVelocity (ball s))
      - nZ 2 * dotp (ballVelocity (ball s)) n * fst n) * restitution,
     (snd (ballVelocity (ball s))
      - nZ 2 * dotp (ballVelocity (ball s)) n * snd n) * restitution).
Proof. reflexivity. Qed.


Lemma applyDecay_velocity (s : Sim) :
  ballVelocity (ball (applyDecay s))
  = (fst (ballVelocity (ball s)) * VELOCITY_DECAY (tuning s),
     snd (ballVelocity (ball s)) * VELOCITY_DECAY (tuning s)).
Proof. reflexivity. Qed.

Lemma preCollision_velocity (now : num) (s : Sim) :
  ballVelocity (ball (preCollision now s))
  = ballVelocity (ball (applyDecay (applyGravity (recordTrail (readClock now s)))))
  /\ VELOCITY_DECAY (tuning (applyGravity (recordTrail (readClock now s))))
     = VELOCITY_DECAY (tuning s).
Proof. split; vm_compute; reflexivity. Qed.

(** ** Runs *)

Local Abbreviation Call := (Call num).

Lemma update_capture (now : num) (s : Sim) :
  capture (update now s) = capture s
  /\ recorders (browser (update now s)) = recorders (browser s).
Proof. tick_cases; split; reflexivity. Qed.

Lemma update_trail (now : num) (s : Sim) :
  previousPositions (ball (update now s))
  = (if (MOTION_BLUR_STEPS <=? length (previousPositions (ball s)))%nat
     then tl (previousPositions (ball s)) else previousPositions (ball s))
    ++ [ballCenter (ball s)].
Proof.
  rewrite <- trail_shift. tick_cases; vm_compute; reflexivity.
Qed.

(** Every call is made of a few primitive changes: a property kept by each
    of them is kept by every call, hence along every run. *)
Section Invariant.

Variable P : Sim -> Prop.

Hypothesis P_reset : forall now rnd s, P s -> P (reset now rnd s).
Hypothesis P_tuning : forall f s, P s -> P (with_tuning f s).
Hypothesis P_driver : forall f s, P s -> P (with_driver f s).
Hypothesis P_update : forall now s, P s -> P (update now s).
Hypothesis P_center : forall c s, P s -> P (set_ballCenter c s).
Hypothesis P_velocity : forall v s, P s -> P (set_ballVelocity v s).
Hypothesis P_emit : forall e s, P s -> P (emit e s).
Hypothesis P_request : forall s, P s -> P (snd (requestAnimationFrame s)).
Hypothesis P_cancel : forall id s, P s -> P (cancelAnimationFrame id s).
Hypothesis P_setup :
  forall r s, P s ->
    P (set_mediaRecorder (Some (length (recorders (browser s))))
         (set_recorders (recorders (browser s) ++ [r]) s)).
Hypothesis P_chunks : forall l s, P s -> P (set_chunks l s).
Hypothesis P_callback : forall k s, P s -> P (set_onRecordingComplete k s).
Hypothesis P_state :
  forall i st s, P s -> P (set_recorders (setState i st (recorders (browser s))) s).

Lemma animate_keeps (now : num) (s : Sim) : P s -> P (animate now s).
Proof.
  intros H. unfold animate. destruct (negb (running (driver s))); [exact H |].
  apply (P_driver (fun d =>
           {| animationId := nextFrame (browser (draw (update now s)));
              running := running d; startTime := startTime d;
              elapsedTime := elapsedTime d; isDragging := isDragging d |})).
  apply P_request. unfold draw. apply P_emit, P_update, H.
Qed.

Lemma start_keeps (now now' : num) (s : Sim) : P s -> P (start now now' s).
Proof.
  intros H. unfold start. apply animate_keeps.
  apply (P_driver (fun d =>
           {| animationId := animationId d; running := true;
              startTime := startTime d; elapsedTime := elapsedTime d;
              isDragging := isDragging d |})).
  destruct (negb (running (driver s))); [| exact H].
  apply (P_driver (fun d =>
           {| animationId := animationId d; running := running d;
              startTime := now - elapsedTime (driver s) * nZ 1000;
              elapsedTime := elapsedTime d; isDragging := isDragging d |})).
  exact H.
Qed.

Lemma stop_keeps (s : Sim) : P s -> P (stop s).
Proof.
  intros H. unfold stop. apply P_cancel.
  apply (P_driver (fun d =>
           {| animationId := animationId d; running := false;
              startTime := startTime d; elapsedTime := elapsedTime d;
              isDragging := isDragging d |})).
  exact H.
Qed.

Lemma drag_flag_keeps (g : bool) (s : Sim) : P s -> P (set_isDragging g s).
Proof. intros H. apply P_driver, H. Qed.

Lemma startRecording_keeps (k : option Callback) (a : option (list Track))
    (s s' : Sim) :
  P s -> startRecording k a s = Some s' -> P s'.
Proof.
  intros H. unfold startRecording, setupRecording. cbv zeta.
  destruct (vp9Supported (browser s)); [| discriminate].
  match goal with
  | |- context [set_mediaRecorder _ (set_recorders (_ ++ [?r]) s)] =>
      assert (H1 := P_setup r H); revert H1;
      generalize (set_mediaRecorder (Some (length (recorders (browser s))))
                    (set_recorders (recorders (browser s) ++ [r]) s))
  end.
  intros u Hu.
  destruct (mediaRecorder (capture u)) as [i |];
    [| intros E; injection E as <-; exact Hu].
  destruct (stateOf i u) as [[| |] |];
    try (intros E; injection E as <-; exact Hu).
  intros E. injection E as <-.
  apply (@P_state i recording (set_onRecordingComplete k (set_chunks [] u))).
  apply P_callback, P_chunks, Hu.
Qed.

Lemma call_keeps (c : Call) (s : Sim) : P s -> P (call c s).
Proof.
  intros H. destruct c; cbn [call].
  - apply P_reset, H.
  - apply P_tuning, H.
  - apply P_tuning, H.
  - apply P_tuning, H.
  - apply P_tuning, H.
  - apply start_keeps, H.
  - apply stop_keeps, H.
  - unfold frame. destruct (existsb _ _); [| exact H].
    apply animate_keeps, P_cancel, H.
  - unfold handleMouseDown. cbv zeta. destruct (nleb _ _); [| exact H].
    apply stop_keeps, drag_flag_keeps, H.
  - unfold handleMouseMove. destruct (isDragging (driver s)); [| exact H].
    cbv zeta. unfold draw.
    apply P_emit, P_velocity, P_center, P_center, H.
  - unfold handleMouseUp. destruct (isDragging (driver s)); [| exact H].
    cbv zeta. apply start_keeps, drag_flag_keeps, H.
  - destruct (startRecording onComplete audioStream s) as [s' |] eqn:E;
      [| exact H].
    exact (startRecording_keeps _ _ H E).
  - unfold stopRecording. destruct (mediaRecorder (capture s)) as [i |];
      [| exact H].
    destruct (stateOf i s) as [[| |] |]; try exact H.
    apply P_state, H.
  - unfold ondataavailable. destruct (0 <? length data)%nat; [| exact H].
    apply P_chunks, H.
  - unfold onstop. cbv zeta. apply P_chunks.
    destruct (onRecordingComplete (capture s)); [apply P_emit |]; exact H.
Qed.

Lemma calls_keep (cs : list Call) (s : Sim) : P s -> P (calls cs s).
Proof.
  revert s. induction cs as [| c cs IH]; intros s H; [exact H |].
  apply (IH (call c s)), call_keeps, H.
Qed.

End Invariant.

(** A change that leaves the fields a property reads. *)
Ltac same := intros; assumption.

(** [reset] leaves everything but the ball, the clock and the colour. *)
Lemma reset_rest (now rnd : num) (s : Sim) :
  WIDTH (reset now rnd s) = WIDTH s
  /\ HEIGHT (reset now rnd s) = HEIGHT s
  /\ onCollision (reset now rnd s) = onCollision s
  /\ tuning (reset now rnd s) = tuning s
  /\ capture (reset now rnd s) = capture s
  /\ browser (reset now rnd s) = browser s
  /\ running (driver (reset now rnd s)) = running (driver s)
  /\ isDragging (driver (reset now rnd s)) = isDragging (driver s)
  /\ animationId (driver (reset now rnd s)) = animationId (driver s).
Proof. repeat apply conj; vm_compute; reflexivity. Qed.

Lemma update_trail_length (now : num) (s : Sim) :
  length (previousPositions (ball (update now s)))
  = if (MOTION_BLUR_STEPS <=? length (previousPositions (ball s)))%nat
    then length (previousPositions (ball s))
    else S (length (previousPositions (ball s))).
Proof.
  rewrite update_trail, length_app, Nat.add_1_r.
  destruct (MOTION_BLUR_STEPS <=? length (previousPositions (ball s)))%nat eqn:E;
    [| reflexivity].
  destruct (previousPositions (ball s)); [discriminate | reflexivity].
Qed.

(** The motion trail never holds more than 5 positions: no call, frame or
    recorder event takes a trail within the bound beyond it. *)
Theorem trail_bounded (cs : list Call) (s : Sim) :
  (length (previousPositions (ball s)) <= MOTION_BLUR_STEPS)%nat ->
  (length (previousPositions (ball (calls cs s))) <= MOTION_BLUR_STEPS)%nat.
Proof.
  apply (calls_keep
           (fun s => (length (previousPositions (ball s)) <= MOTION_BLUR_STEPS)%nat));
    [ | same | same | | same | same | same | same | same | same | same | same
      | same ].
  - intros now rnd u _. rewrite reset_ball. apply Nat.le_0_l.
  - intros now u H. rewrite update_trail_length.
    destruct (MOTION_BLUR_STEPS <=? length (previousPositions (ball u)))%nat eqn:E;
      [exact H |].
    apply Nat.leb_gt in E. exact E.
Qed.

Lemma fold_left_cons_eq (A B : Type) (f : A -> B -> A) (b : B) (l : list B)
    (a : A) :
  fold_left f (b :: l) a = fold_left f l (f a b).
Proof. reflexivity. Qed.

Lemma updates_cons (now : num) (nows : list num) (s : Sim) :
  updates (now :: nows) s = updates nows (update now s).
Proof. exact (fold_left_cons_eq (fun s now => update now s) now nows s). Qed.

Lemma updates_trail_length (nows : list num) (s : Sim) :
  (length (previousPositions (ball s)) <= MOTION_BLUR_STEPS)%nat ->
  length (previousPositions (ball (updates nows s)))
  = Nat.min (length nows + length (previousPositions (ball s))) MOTION_BLUR_STEPS.
Proof.
  revert s. induction nows as [| now nows IH]; intros s H.
  - change (updates [] s) with s. cbn [length Nat.add].
    symmetry. apply Nat.min_l, H.
  - rewrite updates_cons.
    assert (L := update_trail_length now s).
    revert L IH H. unfold MOTION_BLUR_STEPS.
    generalize (length (previousPositions (ball s))).
    intros n L IH H.
    assert (B : (length (previousPositions (ball (update now s))) <= 5)%nat).
    { rewrite L. destruct (5 <=? n)%nat eqn:E; [exact H |].
      apply Nat.leb_gt in E. exact E. }
    rewrite (IH _ B), L. cbn [length].
    destruct (5 <=? n)%nat eqn:E.
    + apply Nat.leb_le in E. lia.
    + lia.
Qed.

(** After [reset] and [k] ticks the trail holds [min k 5] positions, whatever
    the state before and the clock readings. *)
Theorem trail_after_reset (now rnd : num) (nows : list num) (s : Sim) :
  length (previousPositions (ball (updates nows (reset now rnd s))))
  = Nat.min (length nows) MOTION_BLUR_STEPS.
Proof.
  rewrite updates_trail_length; rewrite reset_ball.
  - change (length (previousPositions (initialBall s))) with 0%nat.
    rewrite Nat.add_0_r. reflexivity.
  - apply Nat.le_0_l.
Qed.

Lemma setState_length (i : nat) (st : RecordingState) (l : list MediaRecorder) :
  length (setState i st l) = length l.
Proof.
  revert i. induction l as [| r l IH]; intros [| i]; cbn [setState length];
    try reflexivity. rewrite IH. reflexivity.
Qed.

(** The recorder an instance holds is always one the browser has
    constructed: no run leaves a dangling reference. *)
Theorem recorder_known (cs : list Call) (s : Sim) :
  recorderKnown s -> recorderKnown (calls cs s).
Proof.
  apply (calls_keep (@recorderKnown num));
    [ | same | same | | same | same | same | same | same | | same | same | ].
  - intros now rnd u H. unfold recorderKnown in *.
    destruct (reset_rest now rnd u) as (_ & _ & _ & _ & -> & -> & _).
    exact H.
  - intros now u H. unfold recorderKnown in *.
    destruct (update_capture now u) as [-> ->]. exact H.
  - intros r u _. unfold recorderKnown.
    change (length (recorders (browser u))
            < length (recorders (browser u) ++ [r]))%nat.
    rewrite length_app, Nat.add_1_r. apply Nat.lt_succ_diag_r.
  - intros i st u H. unfold recorderKnown in *.
    change (match mediaRecorder (capture u) with
            | Some j => (j < length (setState i st (recorders (browser u))))%nat
            | None => True
            end).
    rewrite setState_length. exact H.
Qed.

Lemma NoDup_remove_id (id : nat) (l : list nat) :
  NoDup l -> NoDup (remove Nat.eq_dec id l).
Proof.
  induction 1 as [| x l Hx Hl IH]; cbn [remove]; [constructor |].
  destruct (Nat.eq_dec id x); [exact IH |].
  constructor; [| exact IH]. intros Hin. apply in_remove in Hin. tauto.
Qed.

(** Pending frame ids stay distinct and below the next id to hand out along
    every run. *)
Theorem frames_fresh (cs : list Call) (s : Sim) :
  framesFresh s -> framesFresh (calls cs s).
Proof.
  apply (calls_keep (@framesFresh num));
    [ | same | same | | same | same | same | | | same | same | same | same ].
  - intros now rnd u H. unfold framesFresh in *.
    destruct (reset_rest now rnd u) as (_ & _ & _ & _ & _ & -> & _).
    exact H.
  - intros now u H. unfold framesFresh in *.
    destruct (update_frames now u) as [-> ->]. exact H.
  - intros u [Hn Hf]. unfold framesFresh.
    change (NoDup (frames (browser u) ++ [nextFrame (browser u)])
            /\ Forall (fun id => (id < S (nextFrame (browser u)))%nat)
                 (frames (browser u) ++ [nextFrame (browser u)])).
    split.
    + apply NoDup_app; [exact Hn | repeat constructor; intros [] |].
      intros x Hx [<- | []]. rewrite Forall_forall in Hf.
      apply Hf in Hx. lia.
    + apply Forall_app. split.
      * eapply Forall_impl; [| exact Hf]. intros a Ha. cbn in Ha |- *. lia.
      * repeat constructor.
  - intros id u [Hn Hf]. unfold framesFresh.
    change (NoDup (remove Nat.eq_dec id (frames (browser u)))
            /\ Forall (fun i => (i < nextFrame (browser u))%nat)
                 (remove Nat.eq_dec id (frames (browser u)))).
    split; [apply NoDup_remove_id, Hn |].
    rewrite Forall_forall in *. intros x Hx. apply in_remove in Hx.
    apply Hf, Hx.
Qed.

(** ** What a tick leaves behind *)

Lemma notify_onCollision (s : Sim) : onCollision (notify s) = onCollision s.
Proof. unfold notify. destruct (onCollision s) eqn:E; [exact E | exact E]. Qed.

Lemma update_onCollision (now : num) (s : Sim) :
  onCollision (update now s) = onCollision s.
Proof.
  rewrite update_tick. unfold tick. cbv zeta.
  destruct (collides _); [| reflexivity].
  unfold respond. cbv zeta. rewrite notify_onCollision. reflexivity.
Qed.

Lemma update_marks (now : num) (s : Sim) :
  collisionPoints (ball (update now s))
  = collisionPoints (ball s)
    ++ (if collides (preCollision now s)
        then [collisionMark (preCollision now s)] else []).
Proof.
  rewrite update_tick. unfold tick. cbv zeta.
  destruct (collides (preCollision now s)).
  - unfold respond. cbv zeta. rewrite notify_ball. vm_compute. reflexivity.
  - rewrite app_nil_r. vm_compute. reflexivity.
Qed.

Lemma update_events (now : num) (s : Sim) :
  events (browser (update now s))
  = events (browser s)
    ++ (if collides (preCollision now s)
        then match onCollision s with
             | Some cb => [Collided cb]
             | None => []
             end
        else []).
Proof.
  rewrite update_tick. unfold tick. cbv zeta.
  destruct (collides (preCollision now s)).
  - unfold respond, notify. cbv zeta.
    set (s1 := preCollision now s).
    change (onCollision
              (reposition (natan2 (snd (offset s1)) (fst (offset s1)))
                 (markCollision (natan2 (snd (offset s1)) (fst (offset s1)))
                    (bounce s1))))
      with (onCollision s).
    destruct (onCollision s) as [cb |].
    + vm_compute. reflexivity.
    + rewrite app_nil_r. vm_compute. reflexivity.
  - rewrite app_nil_r. vm_compute. reflexivity.
Qed.

(** A colliding tick records one mark, the point of the boundary at the
    collision angle, and calls the collision callback once if there is one;
    a tick without collision records and calls nothing.  A tick never
    repaints and never completes a recording. *)
Theorem update_collision_effects (now : num) (s : Sim) :
  let s1 := preCollision now s in
  collisionPoints (ball (update now s))
  = collisionPoints (ball s)
    ++ (if collides s1 then [collisionMark s1] else [])
  /\ events (browser (update now s))
     = events (browser s)
       ++ (if collides s1
           then match onCollision s with
                | Some cb => [Collided cb]
                | None => []
                end
           else []).
Proof.
  intros s1. split; [apply update_marks | apply update_events].
Qed.

Lemma collisionCalls_app (a b : list (Event num)) :
  collisionCalls (a ++ b) = (collisionCalls a + collisionCalls b)%nat.
Proof. unfold collisionCalls. rewrite filter_app, length_app. reflexivity. Qed.

(** Along any number of ticks the collision callback, when there is one, is
    called exactly once per mark recorded; without a callback no collision
    call appears in the trace. *)
Theorem one_collision_call_per_mark (nows : list num) (s : Sim) :
  match onCollision s with
  | Some _ =>
      (length (collisionPoints (ball (updates nows s)))
       + collisionCalls (events (browser s))
       = length (collisionPoints (ball s))
         + collisionCalls (events (browser (updates nows s))))%nat
  | None =>
      collisionCalls (events (browser (updates nows s)))
      = collisionCalls (events (browser s))
  end.
Proof.
  revert s. induction nows as [| now nows IH]; intros s.
  - change (updates [] s) with s. destruct (onCollision s); reflexivity.
  - rewrite updates_cons. specialize (IH (update now s)).
    rewrite update_onCollision in IH.
    assert (Hm := update_marks now s). assert (He := update_events now s).
    revert IH. rewrite Hm, He, length_app, collisionCalls_app.
    destruct (onCollision s) as [cb |];
      destruct (collides (preCollision now s)); cbn [length collisionCalls filter];
      intros IH; lia.
Qed.

(** ** The pointer *)

Lemma handleMouseDown_off (x y : num) (s : Sim) :
  pointerOnBall x y s = false -> handleMouseDown x y s = s.
Proof.
  intros H. unfold handleMouseDown. cbv zeta.
  change (nleb _ (ballRadius (ball s))) with (pointerOnBall x y s).
  rewrite H. reflexivity.
Qed.

Lemma handleMouseMove_dragging (x y : num) (s : Sim) :
  isDragging (driver s) = true ->
  handleMouseMove x y s
  = draw (set_ballVelocity (nZ 0, nZ 0) (set_ballCenter (x, y) s)).
Proof.
  intros H. unfold handleMouseMove. rewrite H. vm_compute. reflexivity.
Qed.

Lemma handleMouseMove_idle (x y : num) (s : Sim) :
  isDragging (driver s) = false -> handleMouseMove x y s = s.
Proof. intros H. unfold handleMouseMove. rewrite H. reflexivity. Qed.

(** A press that misses the ball starts no drag: the press, any move and the
    release leave the instance exactly as it was. *)
Theorem pointer_off_ball_ignored (x y x' y' now now' : num) (s : Sim) :
  pointerOnBall x y s = false ->
  isDragging (driver s) = false ->
  handleMouseUp now now' (handleMouseMove x' y' (handleMouseDown x y s)) = s.
Proof.
  intros Hp Hd.
  rewrite (handleMouseDown_off x y s Hp), (handleMouseMove_idle x' y' s Hd).
  unfold handleMouseUp. rewrite Hd. reflexivity.
Qed.

Lemma moves_cons (p : Vec) (ps : list Vec) (s : Sim) :
  moves (p :: ps) s = moves ps (handleMouseMove (fst p) (snd p) s).
Proof.
  exact (fold_left_cons_eq
           (fun s p => handleMouseMove (fst p) (snd p) s) p ps s).
Qed.

Lemma last_nonempty (A : Type) (a : A) (l : list A) (d d' : A) :
  last (a :: l) d = last (a :: l) d'.
Proof.
  revert a. induction l as [| b l IH]; intros a; [reflexivity |].
  exact (IH b).
Qed.

(** While a drag is active, moving the pointer through [ps] repaints once
    per move with the ball at the pointer, and ends with the ball at the
    last position, at rest as soon as there was a move; the physics stands
    still: radius, trail, marks, tuning and the driver (clock included) are
    as before. *)
Theorem drag_follows_pointer (ps : list Vec) (s : Sim) :
  isDragging (driver s) = true ->
  events (browser (moves ps s))
  = events (browser s) ++ map (fun p => Drawn p (ballRadius (ball s))) ps
  /\ ballCenter (ball (moves ps s)) = last ps (ballCenter (ball s))
  /\ ballVelocity (ball (moves ps s))
     = match ps with [] => ballVelocity (ball s) | _ :: _ => (nZ 0, nZ 0) end
  /\ ballRadius (ball (moves ps s)) = ballRadius (ball s)
  /\ previousPositions (ball (moves ps s)) = previousPositions (ball s)
  /\ collisionPoints (ball (moves ps s)) = collisionPoints (ball s)
  /\ tuning (moves ps s) = tuning s
  /\ driver (moves ps s) = driver s.
Proof.
  revert s. induction ps as [| [x y] ps IH]; intros s H.
  - change (moves [] s) with s. rewrite app_nil_r.
    repeat apply conj; reflexivity.
  - rewrite moves_cons. cbn [fst snd].
    rewrite (handleMouseMove_dragging x y s H).
    set (u := draw (set_ballVelocity (nZ 0, nZ 0) (set_ballCenter (x, y) s))).
    assert (Hu : isDragging (driver u) = true) by exact H.
    destruct (IH u Hu) as (He & Hc & Hv & Hr & Ht & Hm & Hg & Hd).
    rewrite He, Hc, Hv, Hr, Ht, Hm, Hg, Hd.
    change (events (browser u))
      with (events (browser s) ++ [Drawn (x, y) (ballRadius (ball s))]).
    rewrite <- app_assoc.
    repeat apply conj; try reflexivity.
    + destruct ps as [| p ps']; [reflexivity |].
      exact (last_nonempty p ps' _ _).
    + destruct ps; reflexivity.
Qed.

(** ** The loop *)

Lemma respond_onCollision (s : Sim) :
  onCollision
    (reposition (natan2 (snd (offset s)) (fst (offset s)))
       (markCollision (natan2 (snd (offset s)) (fst (offset s))) (bounce s)))
  = onCollision s.
Proof. vm_compute. reflexivity. Qed.

(** A tick reads the driver only for the clock, and the frame queue not at
    all. *)
Lemma preCollision_with_driver (now : num) (f : Driver num -> Driver num)
    (s : Sim) :
  preCollision now (with_driver f s)
  = with_driver (fun _ => driver (readClock now (with_driver f s)))
      (preCollision now s).
Proof. vm_compute. reflexivity. Qed.

Lemma collides_with_driver (g : Driver num -> Driver num) (s : Sim) :
  collides (with_driver g s) = collides s.
Proof. vm_compute. reflexivity. Qed.

Lemma respond_with_driver (g : Driver num -> Driver num) (s : Sim) :
  respond (with_driver g s) = with_driver g (respond s).
Proof.
  unfold respond, notify. cbv zeta.
  rewrite (respond_onCollision (with_driver g s)), (respond_onCollision s).
  replace (onCollision (with_driver g s)) with (onCollision s)
    by (vm_compute; reflexivity).
  destruct (onCollision s); vm_compute; reflexivity.
Qed.

Lemma update_with_driver (now : num) (f : Driver num -> Driver num) (s : Sim) :
  update now (with_driver f s)
  = with_driver (fun _ => driver (readClock now (with_driver f s)))
      (update now s).
Proof.
  transitivity (tick now (with_driver f s)); [apply update_tick |].
  transitivity
    (with_driver (fun _ => driver (readClock now (with_driver f s)))
       (tick now s));
    [| apply f_equal; symmetry; apply update_tick].
  unfold tick. cbv zeta.
  rewrite preCollision_with_driver, collides_with_driver.
  destruct (collides (preCollision now s)); [| reflexivity].
  apply respond_with_driver.
Qed.

Lemma preCollision_set_frames (now : num) (l : list nat) (s : Sim) :
  preCollision now (set_frames l s) = set_frames l (preCollision now s).
Proof. vm_compute. reflexivity. Qed.

Lemma collides_set_frames (l : list nat) (s : Sim) :
  collides (set_frames l s) = collides s.
Proof. vm_compute. reflexivity. Qed.

Lemma respond_set_frames (l : list nat) (s : Sim) :
  respond (set_frames l s) = set_frames l (respond s).
Proof.
  unfold respond, notify. cbv zeta.
  rewrite (respond_onCollision (set_frames l s)), (respond_onCollision s).
  replace (onCollision (set_frames l s)) with (onCollision s)
    by (vm_compute; reflexivity).
  destruct (onCollision s); vm_compute; reflexivity.
Qed.

Lemma update_set_frames (now : num) (l : list nat) (s : Sim) :
  update now (set_frames l s) = set_frames l (update now s).
Proof.
  transitivity (tick now (set_frames l s)); [apply update_tick |].
  transitivity (set_frames l (tick now s));
    [| apply f_equal; symmetry; apply update_tick].
  unfold tick. cbv zeta.
  rewrite preCollision_set_frames, collides_set_frames.
  destruct (collides (preCollision now s)); [| reflexivity].
  apply respond_set_frames.
Qed.

Lemma nextFrameOf_fields (s u : Sim) :
  events (browser (nextFrameOf s u))
  = events (browser u) ++ [Drawn (ballCenter (ball u)) (ballRadius (ball u))]
  /\ nextFrame (browser (nextFrameOf s u)) = S (nextFrame (browser s))
  /\ capture (nextFrameOf s u) = capture u
  /\ tuning (nextFrameOf s u) = tuning u.
Proof. repeat split; reflexivity. Qed.

Lemma existsb_eqb_In (id : nat) (l : list nat) :
  existsb (Nat.eqb id) l = true <-> In id l.
Proof.
  rewrite existsb_exists. split.
  - intros (x & Hx & E). apply Nat.eqb_eq in E. subst x. exact Hx.
  - intros H. exists id. split; [exact H | apply Nat.eqb_refl].
Qed.

Lemma stop_fields (s : Sim) :
  stop s
  = set_frames (remove Nat.eq_dec (animationId (driver s)) (frames (browser s)))
      (set_running false s).
Proof. reflexivity. Qed.

(** [stop] twice is [stop] once, and once the instance is stopped a frame
    callback that still fires is consumed without a tick, a repaint or a new
    request. *)
Theorem stopped_instance_stays_put (id : nat) (now : num) (s : Sim) :
  stop (stop s) = stop s
  /\ isRunning (stop s) = false
  /\ frame id now (stop s) = cancelAnimationFrame id (stop s)
  /\ ball (frame id now (stop s)) = ball s
  /\ events (browser (frame id now (stop s))) = events (browser s)
  /\ driver (frame id now (stop s)) = driver (stop s).
Proof.
  assert (E1 : stop (stop s) = stop s).
  { rewrite (stop_fields (stop s)).
    change (frames (browser (stop s)))
      with (remove Nat.eq_dec (animationId (driver s)) (frames (browser s))).
    change (animationId (driver (stop s))) with (animationId (driver s)).
    rewrite remove_remove_eq. vm_compute. reflexivity. }
  assert (E3 : frame id now (stop s) = cancelAnimationFrame id (stop s)).
  { unfold frame.
    destruct (existsb (Nat.eqb id) (frames (browser (stop s)))) eqn:E.
    - apply animate_stopped. reflexivity.
    - unfold cancelAnimationFrame. rewrite notin_remove.
      + vm_compute. reflexivity.
      + intros Hin. apply existsb_eqb_In in Hin. congruence. }
  split; [exact E1 | split; [reflexivity | split; [exact E3 |]]].
  rewrite E3. repeat split; reflexivity.
Qed.

Lemma remove_once_length (id : nat) (l : list nat) :
  NoDup l -> In id l -> S (length (remove Nat.eq_dec id l)) = length l.
Proof.
  induction 1 as [| x l Hx Hl IH]; intros Hin; [destruct Hin |].
  cbn [remove]. destruct (Nat.eq_dec id x) as [-> | Hne].
  - rewrite notin_remove by exact Hx. reflexivity.
  - destruct Hin as [-> | Hin]; [congruence |].
    cbn [length]. rewrite IH by exact Hin. reflexivity.
Qed.

(** On a running instance a pending frame callback runs exactly one tick and
    one repaint, and requests exactly one new frame in place of the one it
    consumed: the instance stays running and, frame ids being distinct, as
    many frames are pending as before. *)
Theorem frame_runs_one_tick (id : nat) (now : num) (s : Sim) :
  running (driver s) = true ->
  In id (frames (browser s)) ->
  ball (frame id now s) = ball (update now s)
  /\ events (browser (frame id now s))
     = events (browser (update now s))
       ++ [Drawn (ballCenter (ball (update now s)))
                 (ballRadius (ball (update now s)))]
  /\ isRunning (frame id now s) = true
  /\ animationId (driver (frame id now s)) = nextFrame (browser s)
  /\ frames (browser (frame id now s))
     = remove Nat.eq_dec id (frames (browser s)) ++ [nextFrame (browser s)]
  /\ (NoDup (frames (browser s)) ->
      length (frames (browser (frame id now s))) = length (frames (browser s))).
Proof.
  intros Hr Hin.
  assert (E : frame id now s
              = nextFrameOf (cancelAnimationFrame id s)
                  (set_frames (remove Nat.eq_dec id (frames (browser s)))
                     (update now s))).
  { unfold frame. rewrite (proj2 (existsb_eqb_In id _) Hin).
    rewrite (animate_running now (cancelAnimationFrame id s) Hr).
    f_equal. apply update_set_frames. }
  rewrite E. clear E.
  generalize (update now s) (update_driver now s). intros u Hu.
  destruct (nextFrameOf_driver (cancelAnimationFrame id s)
              (set_frames (remove Nat.eq_dec id (frames (browser s))) u))
    as (H1 & _ & H3 & H4 & H5).
  destruct (nextFrameOf_fields (cancelAnimationFrame id s)
              (set_frames (remove Nat.eq_dec id (frames (browser s))) u))
    as (H6 & _).
  unfold isRunning. rewrite H1, H3, H4, H5, H6.
  change (running (driver (set_frames (remove Nat.eq_dec id (frames (browser s))) u)))
    with (running (driver u)).
  rewrite Hu.
  repeat split; try reflexivity; try exact Hr.
  intros Hnd.
  change (length (remove Nat.eq_dec id (frames (browser s)) ++ [nextFrame (browser s)])
          = length (frames (browser s))).
  rewrite length_app, Nat.add_1_r. apply remove_once_length; assumption.
Qed.

Lemma start_unfolded (now now' : num) (s : Sim) :
  start now now' s
  = nextFrameOf
      (with_driver
         (fun d : Driver num =>
             {| animationId := animationId d; running := true;
                startTime := if negb (running d)
                             then now - elapsedTime d * nZ 1000
                             else startTime d;
                elapsedTime := elapsedTime d; isDragging := isDragging d |}) s)
      (with_driver
         (fun _ =>
            driver
              (readClock now'
                 (with_driver
                    (fun d : Driver num =>
                      {| animationId := animationId d; running := true;
                         startTime := if negb (running d)
                                      then now - elapsedTime d * nZ 1000
                                      else startTime d;
                         elapsedTime := elapsedTime d; isDragging := isDragging d |}) s)))
         (update now' s)).
Proof.
  set (f := fun d : Driver num =>
              {| animationId := animationId d; running := true;
                 startTime := if negb (running d)
                              then now - elapsedTime d * nZ 1000
                              else startTime d;
                 elapsedTime := elapsedTime d; isDragging := isDragging d |}).
  assert (E : start now now' s = animate now' (with_driver f s)).
  { unfold start. cbv zeta. f_equal.
    destruct s as [W H c oc b t [a r st e g] ca br].
    destruct r; reflexivity. }
  rewrite E, (animate_running now' (with_driver f s) eq_refl).
  rewrite update_with_driver. reflexivity.
Qed.

Lemma with_driver_rest (f : Driver num -> Driver num) (u : Sim) :
  ball (with_driver f u) = ball u
  /\ browser (with_driver f u) = browser u
  /\ driver (with_driver f u) = f (driver u).
Proof. repeat split; reflexivity. Qed.

Lemma start_ball (now now' : num) (s : Sim) :
  ball (start now now' s) = ball (update now' s).
Proof.
  rewrite start_unfolded.
  match goal with
  | |- ball (nextFrameOf ?a ?b) = _ =>
      destruct (nextFrameOf_driver a b) as (_ & _ & _ & _ & ->)
  end.
  apply with_driver_rest.
Qed.

Lemma start_running (now now' : num) (s : Sim) :
  isRunning (start now now' s) = true.
Proof.
  rewrite start_unfolded. unfold isRunning.
  match goal with
  | |- running (driver (nextFrameOf ?a ?b)) = _ =>
      destruct (nextFrameOf_driver a b) as (-> & _)
  end.
  match goal with
  | |- running (driver (with_driver ?f ?u)) = _ =>
      destruct (with_driver_rest f u) as (_ & _ & ->)
  end.
  reflexivity.
Qed.

(** [start] always sets the instance running, runs one tick and repaint at
    once and requests one frame; it cancels nothing, so every frame pending
    before stays pending beside the new one. *)
Theorem start_requests_frame (now now' : num) (s : Sim) :
  frames (browser (start now now' s))
  = frames (browser s) ++ [nextFrame (browser s)]
  /\ animationId (driver (start now now' s)) = nextFrame (browser s)
  /\ isRunning (start now now' s) = true
  /\ ball (start now now' s) = ball (update now' s)
  /\ events (browser (start now now' s))
     = events (browser (update now' s))
       ++ [Drawn (ballCenter (ball (update now' s)))
                 (ballRadius (ball (update now' s)))].
Proof.
  rewrite start_unfolded.
  generalize (update now' s). intros u.
  repeat split; reflexivity.
Qed.

(** ** The capture session, from start to artifact *)

Lemma nth_error_setState (l : list MediaRecorder) (i : nat)
    (st : RecordingState) :
  nth_error (setState i st l) i
  = option_map (fun r => {| stream := stream r; state := st |}) (nth_error l i).
Proof.
  revert i. induction l as [| r l IH]; intros [| i]; try reflexivity.
  exact (IH i).
Qed.

Lemma setState_setState (l : list MediaRecorder) (i : nat)
    (st st' : RecordingState) :
  setState i st' (setState i st l) = setState i st' l.
Proof.
  revert i. induction l as [| r l IH]; intros [| i]; try reflexivity.
  cbn [setState]. rewrite IH. reflexivity.
Qed.

Lemma startRecording_unsupported (k : option Callback)
    (a : option (list Track)) (s : Sim) :
  vp9Supported (browser s) = false -> startRecording k a s = None.
Proof.
  intros Hv. unfold startRecording, setupRecording. cbv zeta. rewrite Hv.
  reflexivity.
Qed.

Lemma startRecording_events (k : option Callback) (a : option (list Track))
    (s s' : Sim) :
  startRecording k a s = Some s' -> events (browser s') = events (browser s).
Proof.
  unfold startRecording, setupRecording. cbv zeta.
  destruct (vp9Supported (browser s)); [| discriminate].
  match goal with
  | |- context [set_mediaRecorder ?m (set_recorders ?l s)] =>
      change (mediaRecorder (capture (set_mediaRecorder m (set_recorders l s))))
        with m;
      cbv iota;
      destruct (stateOf (length (recorders (browser s)))
                  (set_mediaRecorder m (set_recorders l s))) as [[| |] |]
  end;
    intros E; injection E as <-; reflexivity.
Qed.

(** [startRecording] fails exactly when the browser cannot construct the
    recorder.  When it can, the recorder it starts carries the canvas video
    track at 60 frames per second followed by the audio tracks of the stream
    handed in, and nothing else of that stream; no stream, or one without
    audio tracks, gives a video-only recording. *)
Theorem startRecording_stream (k : option Callback) (a : option (list Track))
    (s : Sim) :
  (vp9Supported (browser s) = false -> startRecording k a s = None)
  /\ (vp9Supported (browser s) = true ->
      exists s',
        startRecording k a s = Some s'
        /\ nth_error (recorders (browser s')) (length (recorders (browser s)))
           = Some {| stream := VideoTrack 60
                               :: match a with
                                  | Some m => getAudioTracks m
                                  | None => []
                                  end;
                     state := recording |}
        /\ events (browser s') = events (browser s)
        /\ ball s' = ball s /\ driver s' = driver s).
Proof.
  split; intros Hv; unfold startRecording, setupRecording; cbv zeta;
    rewrite Hv; [reflexivity |].
  set (r := {| stream := _; state := inactive |}).
  set (l := recorders (browser s)).
  assert (Hi : stateOf (length l)
                 (set_mediaRecorder (Some (length l)) (set_recorders (l ++ [r]) s))
               = Some inactive).
  { unfold stateOf.
    change (option_map state (nth_error (l ++ [r]) (length l)) = Some inactive).
    rewrite nth_error_app2, Nat.sub_diag by apply le_n. reflexivity. }
  change (mediaRecorder (capture (set_mediaRecorder (Some (length l))
                                    (set_recorders (l ++ [r]) s))))
    with (Some (length l)).
  cbv iota. rewrite Hi.
  eexists. split; [reflexivity |].
  split; [| repeat split; reflexivity].
  change (nth_error (setState (length l) recording (l ++ [r])) (length l)
          = Some {| stream := VideoTrack 60
                              :: match a with
                                 | Some m => getAudioTracks m
                                 | None => []
                                 end;
                    state := recording |}).
  rewrite nth_error_setState_same. subst r. cbn [stream].
  destruct a as [m |]; [| reflexivity].
  destruct (getAudioTracks m); reflexivity.
Qed.

Lemma stopRecording_rest (s : Sim) :
  capture (stopRecording s) = capture s
  /\ events (browser (stopRecording s)) = events (browser s).
Proof.
  unfold stopRecording. destruct (mediaRecorder (capture s)) as [i |];
    [destruct (stateOf i s) as [[| |] |] |]; split; reflexivity.
Qed.

Lemma stopRecording_state (s : Sim) (i : nat) :
  mediaRecorder (capture s) = Some i ->
  stateOf i s = Some recording ->
  stateOf i (stopRecording s) = Some inactive.
Proof.
  intros Hm Hs. unfold stopRecording. rewrite Hm, Hs. unfold stateOf in *.
  change (option_map state
            (nth_error (setState i inactive (recorders (browser s))) i)
          = Some inactive).
  rewrite nth_error_setState.
  destruct (nth_error (recorders (browser s)) i); [reflexivity | discriminate].
Qed.

(** [stopRecording] only ever changes the state of the recorder the instance
    holds, from recording to inactive: buffer and callback stay, nothing is
    delivered yet, a second call changes nothing more, and without a
    recording recorder the call changes nothing at all. *)
Theorem stopRecording_only_stops (s : Sim) :
  stopRecording (stopRecording s) = stopRecording s
  /\ capture (stopRecording s) = capture s
  /\ events (browser (stopRecording s)) = events (browser s)
  /\ (forall i, mediaRecorder (capture s) = Some i ->
        stateOf i s = Some recording ->
        stateOf i (stopRecording s) = Some inactive)
  /\ (forall i, mediaRecorder (capture s) = Some i ->
        stateOf i s <> Some recording -> stopRecording s = s)
  /\ (mediaRecorder (capture s) = None -> stopRecording s = s).
Proof.
  assert (Hrec : forall i, mediaRecorder (capture s) = Some i ->
                   stateOf i s = Some recording ->
                   stopRecording s
                   = set_recorders (setState i inactive (recorders (browser s))) s).
  { intros i Hm Hs. unfold stopRecording. rewrite Hm, Hs. reflexivity. }
  assert (Hoff : forall i, mediaRecorder (capture s) = Some i ->
                   stateOf i s <> Some recording -> stopRecording s = s).
  { intros i Hm Hs. unfold stopRecording. rewrite Hm.
    destruct (stateOf i s) as [[| |] |]; congruence. }
  assert (Hnone : mediaRecorder (capture s) = None -> stopRecording s = s).
  { intros Hm. unfold stopRecording. rewrite Hm. reflexivity. }
  assert (Hst : forall i, mediaRecorder (capture s) = Some i ->
                  stateOf i s = Some recording ->
                  stateOf i (stopRecording s) = Some inactive).
  { intros i Hm Hs. rewrite (Hrec i Hm Hs). unfold stateOf in *.
    change (option_map state
              (nth_error (setState i inactive (recorders (browser s))) i)
            = Some inactive).
    rewrite nth_error_setState.
    destruct (nth_error (recorders (browser s)) i); [reflexivity | discriminate]. }
  destruct (mediaRecorder (capture s)) as [i |] eqn:Hm.
  2: { rewrite (Hnone eq_refl), (Hnone eq_refl).
       repeat split; try reflexivity; try assumption; intros; discriminate. }
  destruct (stateOf i s) as [[| |] |] eqn:Hs;
    try (rewrite (Hoff i eq_refl) by congruence;
         rewrite (Hoff i eq_refl) by congruence;
         repeat split; try reflexivity; try assumption;
         intros j Hj; injection Hj as <-; congruence).
  assert (H1 := Hst i eq_refl Hs).
  repeat split; try assumption.
  - unfold stopRecording at 1.
    replace (mediaRecorder (capture (stopRecording s))) with (Some i)
      by (symmetry; rewrite (Hrec i eq_refl Hs); exact Hm).
    rewrite H1. reflexivity.
  - rewrite (Hrec i eq_refl Hs). reflexivity.
  - rewrite (Hrec i eq_refl Hs). reflexivity.
Qed.

Lemma deliver_cons (d : Blob) (ds : list Blob) (s : Sim) :
  deliver (d :: ds) s = deliver ds (ondataavailable d s).
Proof. exact (fold_left_cons_eq (fun s d => ondataavailable d s) d ds s). Qed.

Lemma deliver_fields (ds : list Blob) (s : Sim) :
  chunks (capture (deliver ds s))
  = chunks (capture s) ++ filter (fun d => (0 <? length d)%nat) ds
  /\ mediaRecorder (capture (deliver ds s)) = mediaRecorder (capture s)
  /\ onRecordingComplete (capture (deliver ds s)) = onRecordingComplete (capture s)
  /\ browser (deliver ds s) = browser s.
Proof.
  revert s. induction ds as [| d ds IH]; intros s.
  - change (deliver [] s) with s. rewrite app_nil_r. repeat split.
  - rewrite deliver_cons.
    destruct (IH (ondataavailable d s)) as (Hc & Hm & Hk & Hb).
    rewrite Hc, Hm, Hk, Hb. unfold ondataavailable. cbn [filter].
    destruct (0 <? length d)%nat; [| repeat split].
    change (chunks (capture (set_chunks (chunks (capture s) ++ [d]) s)))
      with (chunks (capture s) ++ [d]).
    rewrite <- app_assoc. repeat split.
Qed.

Lemma concat_nonempty (ds : list Blob) :
  concat (filter (fun d : Blob => (0 <? length d)%nat) ds) = concat ds.
Proof.
  induction ds as [| d ds IH]; [reflexivity |].
  destruct d as [| x d]; cbn [filter].
  - change (0 <? length (@nil nat))%nat with false. exact IH.
  - change (0 <? length (x :: d))%nat with true. cbn [concat].
    rewrite IH. reflexivity.
Qed.

(** A capture session from start to artifact: [startRecording] with a
    callback, the payloads the recorder hands over while it records,
    [stopRecording], the payloads it still hands over after that, and its
    stop event call the callback exactly once, with all payloads
    concatenated in order (empty ones are dropped and add nothing); the
    buffer is empty again and the recorder inactive. *)
Theorem capture_round_trip (cb : Callback) (a : option (list Track))
    (ds ds' : list Blob) (s : Sim) :
  vp9Supported (browser s) = true ->
  exists s1,
    startRecording (Some cb) a s = Some s1
    /\ let done := onstop (deliver ds' (stopRecording (deliver ds s1))) in
       events (browser done)
       = events (browser s) ++ [Completed cb (concat (ds ++ ds'))]
       /\ chunks (capture done) = []
       /\ stateOf (length (recorders (browser s))) done = Some inactive.
Proof.
  intros Hv.
  destruct (startRecording_starts_anew (Some cb) a s Hv)
    as (s1 & E & Hm & Hc & Hk & Hs & _).
  assert (He := startRecording_events _ _ _ E).
  exists s1. split; [exact E |].
  set (n := length (recorders (browser s))) in *.
  destruct (deliver_fields ds s1) as (Dc & Dm & Dk & Db).
  rewrite Hc in Dc. rewrite Hm in Dm. rewrite Hk in Dk.
  set (d := deliver ds s1) in *.
  assert (Ds : stateOf n d = Some recording).
  { unfold stateOf in *. rewrite Db. exact Hs. }
  destruct (stopRecording_rest d) as [Sc Se].
  assert (Ss := @stopRecording_state d n Dm Ds).
  set (u := stopRecording d) in *.
  destruct (deliver_fields ds' u) as (Uc & _ & Uk & Ub).
  rewrite Sc, Dc in Uc. rewrite Sc, Dk in Uk. cbn [app] in Uc.
  set (v := deliver ds' u) in *.
  cbv zeta. unfold onstop. cbv zeta. rewrite Uc, Uk.
  rewrite <- filter_app, concat_nonempty.
  split; [| split].
  - change (events (browser v) ++ [Completed cb (concat (ds ++ ds'))]
            = events (browser s) ++ [Completed cb (concat (ds ++ ds'))]).
    rewrite Ub, Se. subst d. rewrite Db, He. reflexivity.
  - reflexivity.
  - unfold stateOf in *.
    change (option_map state (nth_error (recorders (browser v)) n)
            = Some inactive).
    rewrite Ub. exact Ss.
Qed.

Lemma preCollision_motion (now : num) (s : Sim) :
  ballVelocity (ball (preCollision now s))
  = (fst (ballVelocity (ball s)) * VELOCITY_DECAY (tuning s),
     (snd (ballVelocity (ball s)) + GRAVITY (tuning s))
     * VELOCITY_DECAY (tuning s))
  /\ ballCenter (ball (preCollision now s))
     = (fst (ballCenter (ball s))
        + fst (ballVelocity (ball s)) * VELOCITY_DECAY (tuning s),
        snd (ballCenter (ball s))
        + (snd (ballVelocity (ball s)) + GRAVITY (tuning s))
          * VELOCITY_DECAY (tuning s)).
Proof. split; vm_compute; reflexivity. Qed.

Lemma release_running (now now' : num) (s : Sim) :
  isDragging (driver s) = true -> isRunning (handleMouseUp now now' s) = true.
Proof.
  intros H. unfold handleMouseUp. rewrite H. cbv zeta. apply start_running.
Qed.

End SimulationFacts.

(** ** The application *)

Section AppFacts.

Variable num : Type.
Context {N : Number num}.

Local Open Scope num_scope.

Local Abbreviation State := (UI.t num).
Local Abbreviation Text := (TextElement.t num).

(** The play/pause button toggles the instance, and the flag the button
    shows agrees with the instance afterwards, whatever it showed before. *)
Theorem play_pause_in_step (now now' : num) (a : State) (sim : Sim num) :
  UI.simulationRef a = Some sim ->
  exists sim',
    UI.simulationRef (App.handlePlayPause now now' a) = Some sim'
    /\ isRunning sim' = negb (isRunning sim)
    /\ UI.isRunning (App.handlePlayPause now now' a) = isRunning sim'
    /\ ball sim' = (if isRunning sim then ball sim else ball (update now' sim)).
Proof.
  intros H. unfold App.handlePlayPause. rewrite H.
  destruct (isRunning sim) eqn:E.
  - exists (stop sim). repeat split; reflexivity.
  - exists (start now now' sim).
    assert (R := start_running now now' sim).
    split; [reflexivity | split; [exact R | split]].
    + change (true = isRunning (start now now' sim)). symmetry. exact R.
    + apply start_ball.
Qed.

Lemma pointerOnBall_stop (x y : num) (s : Sim num) :
  pointerOnBall x y (stop s) = pointerOnBall x y s.
Proof. reflexivity. Qed.

(** The pointer handlers never write the flag the play/pause button shows:
    after the button paused a running instance, a press on the ball and the
    release leave the instance running while the button still shows it
    paused. *)
Theorem release_after_pause_runs_unseen (t0 t0' t1 t1' : num)
    (rect : DOMRect.t num) (e : App.MouseEvent num) (a : State)
    (c : UI.Canvas num) (sim : Sim num) :
  UI.canvasRef a = Some c ->
  UI.simulationRef a = Some sim ->
  isRunning sim = true ->
  pointerOnBall (fst (App.canvasPoint c rect e))
                (snd (App.canvasPoint c rect e)) sim = true ->
  let paused := App.handlePlayPause t0 t0' a in
  let released := App.handleMouseUp t1 t1' (App.handleMouseDown rect e paused) in
  UI.isRunning paused = false
  /\ UI.simulationRef paused = Some (stop sim)
  /\ UI.isRunning released = false
  /\ exists sim', UI.simulationRef released = Some sim' /\ isRunning sim' = true.
Proof.
  intros Hc Hs Hr Hp paused released.
  assert (E : paused
              = App.setIsRunning false (App.withSimulation (stop sim) a)).
  { unfold paused, App.handlePlayPause. rewrite Hs, Hr. reflexivity. }
  split; [rewrite E; reflexivity | split; [rewrite E; reflexivity |]].
  unfold released. rewrite E. unfold App.handleMouseDown.
  change (UI.canvasRef
            (App.setIsRunning false (App.withSimulation (stop sim) a)))
    with (UI.canvasRef a).
  change (UI.simulationRef
            (App.setIsRunning false (App.withSimulation (stop sim) a)))
    with (Some (stop sim)).
  rewrite Hc. revert Hp.
  destruct (App.canvasPoint c rect e) as [x y]. cbn [fst snd]. intros Hp.
  rewrite (handleMouseDown_on x y (stop sim))
    by (rewrite pointerOnBall_stop; exact Hp).
  split; [reflexivity |].
  eexists. split; [reflexivity |].
  apply release_running. reflexivity.
Qed.

Lemma press_with_refs (rect : DOMRect.t num) (e : App.MouseEvent num)
    (a : State) (c : UI.Canvas num) (sim : Sim num) :
  UI.canvasRef a = Some c ->
  UI.simulationRef a = Some sim ->
  let p := App.canvasPoint c rect e in
  App.handleMouseDown rect e a
  = App.setTextElements
      (map (fun text : Text =>
              if App.onText (fst p) (snd p) text
              then App.withDragging true text else text))
      (App.withSimulation (handleMouseDown (fst p) (snd p) sim) a).
Proof.
  intros Hc Hs p. unfold App.handleMouseDown. rewrite Hc, Hs. unfold p.
  destruct (App.canvasPoint c rect e) as [x y]. reflexivity.
Qed.

Lemma move_with_refs (rect : DOMRect.t num) (e : App.MouseEvent num)
    (a : State) (c : UI.Canvas num) (sim : Sim num) :
  UI.canvasRef a = Some c ->
  UI.simulationRef a = Some sim ->
  let p := App.canvasPoint c rect e in
  App.handleMouseMove rect e a
  = App.setTextElements
      (map (fun text : Text =>
              if TextElement.isDragging text
              then App.withPosition (fst p) (snd p) text else text))
      (App.withSimulation (handleMouseMove (fst p) (snd p) sim) a).
Proof.
  intros Hc Hs p. unfold App.handleMouseMove. rewrite Hc, Hs. unfold p.
  destruct (App.canvasPoint c rect e) as [x y]. reflexivity.
Qed.

Lemma release_texts (now now' : num) (a : State) :
  UI.textElements (App.handleMouseUp now now' a)
  = map (App.withDragging false) (UI.textElements a).
Proof.
  unfold App.handleMouseUp. destruct (UI.simulationRef a); reflexivity.
Qed.

Lemma label_dragged (x y x' y' : num) (t : Text) :
  TextElement.isDragging t = false ->
  App.withDragging false
    (let t1 := if App.onText x y t then App.withDragging true t else t in
     if TextElement.isDragging t1 then App.withPosition x' y' t1 else t1)
  = App.dragged x y x' y' t.
Proof.
  intros H. cbv zeta. unfold App.dragged.
  destruct (App.onText x y t).
  - destruct t; cbn in H |- *; subst; reflexivity.
  - rewrite H. destruct t; cbn in H |- *; subst; reflexivity.
Qed.

(** A press, a move and a release move exactly the labels whose box the
    press was in to the point of the move, and leave every other label and
    every other field as it was; no label is left being dragged.  It holds
    when no label was being dragged before the press. *)
Theorem label_drag_moves_hit_labels (t1 t1' : num) (rect rect' : DOMRect.t num)
    (e e' : App.MouseEvent num) (a : State) (c : UI.Canvas num)
    (sim : Sim num) :
  UI.canvasRef a = Some c ->
  UI.simulationRef a = Some sim ->
  Forall (fun t => TextElement.isDragging t = false) (UI.textElements a) ->
  let p := App.canvasPoint c rect e in
  let p' := App.canvasPoint c rect' e' in
  let a' := App.handleMouseUp t1 t1'
              (App.handleMouseMove rect' e' (App.handleMouseDown rect e a)) in
  UI.textElements a'
  = map (App.dragged (fst p) (snd p) (fst p') (snd p')) (UI.textElements a)
  /\ Forall (fun t => TextElement.isDragging t = false) (UI.textElements a').
Proof.
  intros Hc Hs Hd p p' a'.
  assert (E : UI.textElements a'
              = map (App.dragged (fst p) (snd p) (fst p') (snd p'))
                  (UI.textElements a)).
  { unfold a'. rewrite release_texts.
    rewrite (press_with_refs rect e a Hc Hs). fold p.
    set (pressed := App.setTextElements _ _).
    assert (Hc' : UI.canvasRef pressed = Some c) by exact Hc.
    rewrite (move_with_refs rect' e' pressed Hc' eq_refl). fold p'.
    change (map (App.withDragging false)
              (map (fun text : Text =>
                      if TextElement.isDragging text
                      then App.withPosition (fst p') (snd p') text else text)
                 (map (fun text : Text =>
                         if App.onText (fst p) (snd p) text
                         then App.withDragging true text else text)
                    (UI.textElements a)))
            = map (App.dragged (fst p) (snd p) (fst p') (snd p'))
                (UI.textElements a)).
    rewrite !map_map. apply map_ext_in. intros t Ht.
    rewrite Forall_forall in Hd.
    exact (label_dragged (fst p) (snd p) (fst p') (snd p') t (Hd t Ht)). }
  split; [exact E |].
  rewrite E. apply Forall_map. eapply Forall_impl; [| exact Hd].
  intros t Ht. unfold App.dragged.
  destruct (App.onText _ _ t); [| exact Ht].
  destruct t; exact Ht.
Qed.

(** The record button: where the browser cannot construct the recorder the
    click changes nothing; where it can, the first click starts a recording
    with the download callback and shows it, and the second stops that
    recorder, keeps the callback for the artifact and shows no recording. *)
Theorem record_button_round_trip (k k' : Callback)
    (au au' : option (list Track)) (a : State) (c : UI.Canvas num)
    (sim : Sim num) :
  UI.canvasRef a = Some c ->
  UI.simulationRef a = Some sim ->
  UI.isRecording a = false ->
  let n := length (recorders (browser sim)) in
  let a1 := App.handleRecording k au a in
  let a2 := App.handleRecording k' au' a1 in
  (vp9Supported (browser sim) = false -> a1 = a)
  /\ (vp9Supported (browser sim) = true ->
      exists sim1 sim2,
        UI.simulationRef a1 = Some sim1
        /\ UI.isRecording a1 = true
        /\ stateOf n sim1 = Some recording
        /\ onRecordingComplete (capture sim1) = Some k
        /\ UI.simulationRef a2 = Some sim2
        /\ UI.isRecording a2 = false
        /\ stateOf n sim2 = Some inactive
        /\ onRecordingComplete (capture sim2) = Some k).
Proof.
  intros Hc Hs Hr n a1 a2. split; intros Hv.
  - unfold a1, App.handleRecording. rewrite Hs, Hc, Hr. cbn [negb].
    rewrite (startRecording_unsupported (Some k) au sim Hv). reflexivity.
  - destruct (startRecording_starts_anew (Some k) au sim Hv)
      as (sim1 & E & Hm & _ & Hk & Hst & _).
    assert (E1 : a1 = App.setIsRecording true (App.withSimulation sim1 a)).
    { unfold a1, App.handleRecording. rewrite Hs, Hc, Hr. cbn [negb].
      rewrite E. reflexivity. }
    assert (E2 : a2 = App.setIsRecording false
                        (App.withSimulation (stopRecording sim1) a1)).
    { unfold a2, App.handleRecording. rewrite E1.
      change (UI.simulationRef
                (App.setIsRecording true (App.withSimulation sim1 a)))
        with (Some sim1).
      change (UI.canvasRef
                (App.setIsRecording true (App.withSimulation sim1 a)))
        with (UI.canvasRef a).
      rewrite Hc. reflexivity. }
    destruct (stopRecording_rest sim1) as [Sc _].
    assert (Ss := @stopRecording_state num sim1 n Hm Hst).
    exists sim1, (stopRecording sim1).
    rewrite E2, E1.
    split; [reflexivity | split; [reflexivity |]].
    split; [exact Hst | split; [exact Hk |]].
    split; [reflexivity | split; [reflexivity |]].
    split; [exact Ss | rewrite Sc; exact Hk].
Qed.

End AppFacts.


(** ** In exact arithmetic *)

Module Exact.

Import Scene.

Local Open Scope R_scope.

#[local] Existing Instance RealNum.number.

Lemma ltb_true (a b : R) : RealNum.ltb a b = true <-> a < b.
Proof. unfold RealNum.ltb; destruct (Rlt_dec a b); split; intros; try easy; lra. Qed.

Lemma ltb_false (a b : R) : RealNum.ltb a b = false <-> b <= a.
Proof. unfold RealNum.ltb; destruct (Rlt_dec a b); split; intros; try easy; lra. Qed.

Lemma leb_true (a b : R) : RealNum.leb a b = true <-> a <= b.
Proof. unfold RealNum.leb; destruct (Rle_dec a b); split; intros; try easy; lra. Qed.

Lemma leb_false (a b : R) : RealNum.leb a b = false <-> b < a.
Proof. unfold RealNum.leb; destruct (Rle_dec a b); split; intros; try easy; lra. Qed.

(** Reading the interface at the reals. *)
Ltac real_ops :=
  cbv [nadd nsub nmul ndiv nsqrt nmin ncos nsin natan2 nltb nleb nZ lit
       RealNum.number fst snd] in *.

Lemma sqrt_sum_squares_scaled (a c d : R) :
  0 <= a -> c * c + d * d = 1 -> sqrt (a * c * (a * c) + a * d * (a * d)) = a.
Proof.
  intros Ha H.
  replace (a * c * (a * c) + a * d * (a * d)) with (a * a * (c * c + d * d))
    by ring.
  rewrite H, Rmult_1_r. apply sqrt_square, Ha.
Qed.

Lemma grownRadius_le (s : Sim R) :
  ballRadius (ball s) <= CIRCLE_RADIUS s -> grownRadius s <= CIRCLE_RADIUS s.
Proof.
  intros H. unfold grownRadius, MAX_BALL_RADIUS.
  set (cr := CIRCLE_RADIUS s) in *. real_ops.
  destruct (RealNum.ltb _ _); [| exact H].
  eapply Rle_trans; [apply Rmin_r | lra].
Qed.

Lemma CIRCLE_RADIUS_canvas (s s' : Sim R) :
  WIDTH s' = WIDTH s -> HEIGHT s' = HEIGHT s ->
  CIRCLE_RADIUS s' = CIRCLE_RADIUS s.
Proof. intros Hw Hh. unfold CIRCLE_RADIUS. rewrite Hw, Hh. reflexivity. Qed.

Lemma respond_contained (s : Sim R) :
  ballRadius (ball s) <= CIRCLE_RADIUS s ->
  distance (respond s) + ballRadius (ball (respond s))
  = CIRCLE_RADIUS (respond s).
Proof.
  intros H. apply grownRadius_le in H.
  destruct (respond_canvas s) as [Hw Hh].
  rewrite (CIRCLE_RADIUS_canvas _ _ Hw Hh).
  unfold distance, offset, circleCenter.
  rewrite respond_center, respond_radius, Hw, Hh.
  unfold circleCenter, norm.
  set (cr := CIRCLE_RADIUS s) in *. set (g := grownRadius s) in *.
  set (th := collisionAngle s).
  real_ops.
  assert (T := sin2_cos2 th). unfold Rsqr in T.
  replace (WIDTH s / 2 + (cr - g) * cos th - WIDTH s / 2)
    with ((cr - g) * cos th) by ring.
  replace (HEIGHT s / 2 + (cr - g) * sin th - HEIGHT s / 2)
    with ((cr - g) * sin th) by ring.
  rewrite sqrt_sum_squares_scaled; [ring | lra | lra].
Qed.

(** Claim C5, amended.  In exact arithmetic, for a ball no larger than the
    boundary (the bound the data model states: radius at most
    MAX_BALL_RADIUS, ten below the boundary radius): after the repositioning
    step of a colliding tick the distance of the ball center from the
    boundary center plus the ball radius is the boundary radius, hence at
    most the boundary radius plus any tolerance [eps >= 0]. *)
Theorem contained_after_collision (now : R) (s : Sim R) :
  ballRadius (ball s) <= CIRCLE_RADIUS s ->
  collides (preCollision now s) = true ->
  distance (update now s) + ballRadius (ball (update now s))
  = CIRCLE_RADIUS (update now s)
  /\ forall eps : R, 0 <= eps ->
       distance (update now s) + ballRadius (ball (update now s))
       <= CIRCLE_RADIUS (update now s) + eps.
Proof.
  intros Hr Hc.
  assert (E : distance (update now s) + ballRadius (ball (update now s))
              = CIRCLE_RADIUS (update now s)).
  { rewrite update_tick. unfold tick. cbv zeta. rewrite Hc.
    apply respond_contained.
    destruct (preCollision_static now s) as (Hw & Hh & Hb & _).
    rewrite Hb, (CIRCLE_RADIUS_canvas _ _ Hw Hh). exact Hr. }
  split; [exact E |]. intros eps He. rewrite E. lra.
Qed.


Lemma unit_normal (s : Sim R) : distance s <> 0 -> dotp (normal s) (normal s) = 1.
Proof.
  unfold normal, dotp, distance, norm.
  set (dx := fst (offset s)). set (dy := snd (offset s)).
  real_ops. set (d := sqrt (dx * dx + dy * dy)). intros Hd.
  assert (Hs : d * d = dx * dx + dy * dy) by (apply sqrt_sqrt; nra).
  replace (dx / d * (dx / d) + dy / d * (dy / d))
    with ((dx * dx + dy * dy) / (d * d)) by (field; exact Hd).
  rewrite <- Hs. field. exact Hd.
Qed.



Lemma speed_scaled (vx vy d : R) :
  0 <= d ->
  sqrt (vx * d * (vx * d) + vy * d * (vy * d)) = d * sqrt (vx * vx + vy * vy).
Proof.
  intros Hd.
  replace (vx * d * (vx * d) + vy * d * (vy * d))
    with (d * d * (vx * vx + vy * vy)) by ring.
  rewrite sqrt_mult by nra. rewrite sqrt_square by exact Hd. reflexivity.
Qed.

Lemma speed_nonneg (s : Sim R) : 0 <= speed s.
Proof. unfold speed, norm. real_ops. apply sqrt_pos. Qed.

(** Claim C6, amended.  In exact arithmetic, with a decay factor that is not
    negative: in a tick without collision the radius is unchanged and the
    speed after the decay step, which is the speed the tick ends with, is the
    decay factor times the speed after the gravity step; so it does not
    exceed it when the factor is at most 1 and is strictly below it when the
    factor is below 1 and the ball moves. *)
Theorem decay_without_collision (now : R) (s : Sim R) :
  let sg := applyGravity (recordTrail (readClock now s)) in
  let d := VELOCITY_DECAY (tuning s) in
  0 <= d ->
  collides (preCollision now s) = false ->
  ballRadius (ball (update now s)) = ballRadius (ball s)
  /\ speed (applyDecay sg) = d * speed sg
  /\ speed (update now s) = d * speed sg
  /\ (d <= 1 -> speed (update now s) <= speed sg)
  /\ (d < 1 -> 0 < speed sg -> speed (update now s) < speed sg).
Proof.
  intros sg d Hd Hc.
  assert (Hu : update now s = preCollision now s).
  { rewrite update_tick. unfold tick. cbv zeta. rewrite Hc. reflexivity. }
  assert (Hs : speed (applyDecay sg) = d * speed sg).
  { unfold speed. rewrite applyDecay_velocity.
    destruct (preCollision_velocity now s) as [_ Ht]. fold sg in Ht.
    rewrite Ht. fold d.
    destruct (ballVelocity (ball sg)) as [vx vy].
    unfold norm. real_ops. apply speed_scaled, Hd. }
  assert (Hf : speed (update now s) = d * speed sg).
  { rewrite Hu, <- Hs. unfold speed.
    destruct (preCollision_velocity now s) as [-> _]. reflexivity. }
  assert (Hp := speed_nonneg sg).
  split; [| split; [exact Hs | split; [exact Hf | split]]].
  - rewrite Hu. apply (preCollision_static now s).
  - intros H1. rewrite Hf. nra.
  - intros H1 H2. rewrite Hf. nra.
Qed.

(** Claim C9.  In exact arithmetic, if the ball radius is below the boundary
    radius, then whenever [update] takes the collision branch the distance it
    divides by is strictly positive: the normal is defined, and a unit
    vector. *)
Theorem collision_distance_positive (now : R) (s : Sim R) :
  let s1 := preCollision now s in
  ballRadius (ball s) < CIRCLE_RADIUS s ->
  collides s1 = true ->
  0 < distance s1
  /\ distance s1 <> 0
  /\ normal s1 = (fst (offset s1) / distance s1, snd (offset s1) / distance s1)
  /\ dotp (normal s1) (normal s1) = 1.
Proof.
  intros s1 Hr Hc.
  assert (Hpos : 0 < distance s1).
  { unfold collides in Hc.
    destruct (preCollision_static now s) as (Hw & Hh & Hb & _).
    fold s1 in Hw, Hh, Hb.
    rewrite Hb, (CIRCLE_RADIUS_canvas _ _ Hw Hh) in Hc.
    set (cr := CIRCLE_RADIUS s) in *. set (dist := distance s1) in *.
    real_ops. apply leb_true in Hc. lra. }
  assert (Hne : distance s1 <> 0) by lra.
  split; [exact Hpos | split; [exact Hne | split; [reflexivity |]]].
  apply unit_normal, Hne.
Qed.

(** *** The velocity floor, where the ball moves *)

Lemma enforceMinVelocity_velocity (s : Sim R) :
  ballVelocity (ball (enforceMinVelocity s))
  = if RealNum.ltb (speed s) 1
    then (fst (ballVelocity (ball s)) * (1 / speed s),
          snd (ballVelocity (ball s)) * (1 / speed s))
    else ballVelocity (ball s).
Proof. reflexivity. Qed.

Lemma enforceMinVelocity_floor (s : Sim R) :
  speed s <> 0 -> 1 <= speed (enforceMinVelocity s).
Proof.
  intros Hz. assert (Hp := speed_nonneg s).
  unfold speed at 1. rewrite enforceMinVelocity_velocity.
  destruct (RealNum.ltb (speed s) 1) eqn:E.
  - assert (Hs : speed s = norm (ballVelocity (ball s))) by reflexivity.
    revert Hs. generalize (ballVelocity (ball s)). intros [vx vy] Hs.
    set (sp := speed s) in *.
    assert (Hd : 0 <= 1 / sp) by (apply Rlt_le, Rdiv_lt_0_compat; lra).
    unfold norm in *. real_ops. rewrite (speed_scaled _ _ Hd), <- Hs.
    right. field. exact Hz.
  - apply ltb_false in E. exact E.
Qed.

Lemma grownRadius_max (s : Sim R) :
  ballRadius (ball s) <= MAX_BALL_RADIUS s -> grownRadius s <= MAX_BALL_RADIUS s.
Proof.
  intros H. unfold grownRadius.
  set (m := MAX_BALL_RADIUS s) in *. real_ops.
  destruct (RealNum.ltb _ _); [apply Rmin_r | exact H].
Qed.

(** What the collision branch does reach: with a ball within its maximum and
    a velocity that is not zero after the boost, the tick ends at speed at
    least 1 and radius at most MAX_BALL_RADIUS. *)
Lemma floor_holds_when_moving (now : R) (s : Sim R) :
  let s1 := preCollision now s in
  collides s1 = true ->
  speed (boostVelocity (reflectVelocity (normal s1) s1)) <> 0 ->
  ballRadius (ball s) <= MAX_BALL_RADIUS s ->
  1 <= speed (update now s)
  /\ ballRadius (ball (update now s)) <= MAX_BALL_RADIUS (update now s).
Proof.
  intros s1 Hc Hz Hr.
  rewrite update_tick. unfold tick. cbv zeta. fold s1. rewrite Hc.
  destruct (preCollision_static now s) as (Hw & Hh & Hb & _).
  fold s1 in Hw, Hh, Hb.
  destruct (respond_canvas s1) as [Hw' Hh'].
  split.
  - unfold speed. rewrite respond_velocity, bounce_velocity.
    apply enforceMinVelocity_floor, Hz.
  - unfold MAX_BALL_RADIUS.
    rewrite (CIRCLE_RADIUS_canvas _ _ Hw' Hh'), respond_radius.
    apply grownRadius_max. rewrite Hb. unfold MAX_BALL_RADIUS.
    rewrite (CIRCLE_RADIUS_canvas _ _ Hw Hh). exact Hr.
Qed.

Ltac run_model :=
  cbv -[Rplus Rminus Rmult Rdiv Rinv Ropp IZR sqrt cos sin atan PI Rmin
        Rle_dec Rlt_dec Rle Rlt RealNum.ltb RealNum.leb RealNum.atan2].

Lemma le_sqrt (a x : R) : 0 <= a -> a * a <= x -> a <= sqrt x.
Proof.
  intros Ha H. rewrite <- (sqrt_square a Ha). apply sqrt_le_1; nra.
Qed.

Lemma sqrt_lt (a x : R) : 0 <= x -> 0 < a -> x < a * a -> sqrt x < a.
Proof.
  intros Hx Ha H. rewrite <- (sqrt_square a) by lra. apply sqrt_lt_1; nra.
Qed.

Lemma surface_radius : Rmin 1080 1920 = 1080.
Proof. apply Rmin_left. lra. Qed.

Lemma outside_collides : collides (preCollision 0 outside) = true.
Proof.
  run_model. apply leb_true. rewrite surface_radius.
  apply le_sqrt; lra.
Defined.

Lemma outside_fits : ballRadius (ball outside) <= CIRCLE_RADIUS outside.
Proof. run_model. rewrite surface_radius. lra. Defined.

Lemma falling_free : collides (preCollision 0 falling) = false.
Proof.
  run_model. apply leb_false. rewrite surface_radius.
  apply sqrt_lt; [nra | lra | lra].
Defined.

Lemma contained_after_collision_witness :
  ballRadius (ball outside) <= CIRCLE_RADIUS outside
  /\ collides (preCollision 0 outside) = true
  /\ distance (update 0 outside) + ballRadius (ball (update 0 outside))
     <= CIRCLE_RADIUS (update 0 outside) + 1 / 1000.
Proof.
  split; [exact outside_fits | split; [exact outside_collides |]].
  apply (@contained_after_collision 0 outside outside_fits outside_collides).
  lra.
Defined.

Lemma outside_distance : distance (preCollision 0 outside) <> 0.
Proof.
  run_model. rewrite surface_radius || idtac.
  assert (H : 1 <= sqrt ((540 + 0 * (9995 / 10000) - 1080 / 2)
                        * (540 + 0 * (9995 / 10000) - 1080 / 2)
                        + (1900 + (0 + 0) * (9995 / 10000) - 1920 / 2)
                          * (1900 + (0 + 0) * (9995 / 10000) - 1920 / 2)))
    by (apply le_sqrt; lra).
  lra.
Defined.


Lemma falling_decay : 0 <= VELOCITY_DECAY (tuning falling).
Proof. run_model. lra. Defined.

Lemma decay_without_collision_witness :
  0 <= VELOCITY_DECAY (tuning falling)
  /\ collides (preCollision 0 falling) = false
  /\ ballRadius (ball (update 0 falling)) = ballRadius (ball falling)
  /\ speed (update 0 falling)
     = VELOCITY_DECAY (tuning falling)
       * speed (applyGravity (recordTrail (readClock 0 falling))).
Proof.
  split; [exact falling_decay | split; [exact falling_free |]].
  destruct (@decay_without_collision 0 falling falling_decay falling_free)
    as (Hr & _ & Hs & _).
  split; [exact Hr | exact Hs].
Defined.

Lemma outside_smaller : ballRadius (ball outside) < CIRCLE_RADIUS outside.
Proof. run_model. rewrite surface_radius. lra. Defined.

Lemma collision_distance_positive_witness :
  ballRadius (ball outside) < CIRCLE_RADIUS outside
  /\ collides (preCollision 0 outside) = true
  /\ 0 < distance (preCollision 0 outside).
Proof.
  split; [exact outside_smaller | split; [exact outside_collides |]].
  apply (@collision_distance_positive 0 outside outside_smaller outside_collides).
Defined.

Lemma falling_on_ball : pointerOnBall 540 700 falling = true.
Proof.
  run_model. apply leb_true.
  replace ((540 - 540) * (540 - 540) + (700 - 700) * (700 - 700)) with 0
    by ring.
  rewrite sqrt_0. lra.
Defined.

Lemma drag_then_release_witness :
  pointerOnBall 540 700 falling = true
  /\ ballCenter
       (ball (handleMouseMove 300 900 (handleMouseDown 540 700 falling)))
     = (300, 900)
  /\ ballVelocity
       (ball (handleMouseMove 300 900 (handleMouseDown 540 700 falling)))
     = (0, 0)
  /\ isRunning
       (handleMouseUp 10 11
          (handleMouseMove 300 900 (handleMouseDown 540 700 falling)))
     = true.
Proof.
  split; [exact falling_on_ball |].
  destruct (@drag_then_release R _ falling 540 700 300 900 10 11 falling_on_ball)
    as (Hc & Hv & _ & _ & _ & _ & _ & _ & _ & Hr & _).
  split; [exact Hc | split; [exact Hv | exact Hr]].
Defined.

Lemma release_resumes_press_stops_witness :
  (isDragging (driver held) = true /\ isRunning (handleMouseUp 10 11 held) = true)
  /\ (isDragging (driver falling) = false /\ handleMouseUp 10 11 falling = falling)
  /\ (pointerOnBall 540 700 falling = true
      /\ isRunning (handleMouseDown 540 700 falling) = false).
Proof.
  split; [| split].
  - split; [reflexivity |].
    apply (proj1 (@release_resumes_press_stops R _ held 10 11 540 700)).
    reflexivity.
  - split; [reflexivity |].
    apply (proj1 (proj2 (@release_resumes_press_stops R _ falling 10 11 540 700))).
    reflexivity.
  - split; [exact falling_on_ball |].
    apply (proj2 (proj2 (@release_resumes_press_stops R _ falling 10 11 540 700))).
    exact falling_on_ball.
Defined.

(** *** Where the two bounds stop *)

Lemma cramped_collides : collides (preCollision 0 cramped) = true.
Proof.
  run_model. apply leb_true.
  replace (Rmin 256 256) with 256 by (symmetry; apply Rmin_left; lra).
  eapply Rle_trans; [| apply sqrt_pos]. lra.
Qed.

Lemma respond_beyond (s : Sim R) :
  CIRCLE_RADIUS s <= grownRadius s ->
  distance (respond s) = grownRadius s - CIRCLE_RADIUS s.
Proof.
  intros H.
  destruct (respond_canvas s) as [Hw Hh].
  unfold distance, offset, circleCenter.
  rewrite respond_center, Hw, Hh.
  unfold circleCenter, norm.
  set (cr := CIRCLE_RADIUS s) in *. set (g := grownRadius s) in *.
  set (th := collisionAngle s).
  real_ops.
  assert (T := sin2_cos2 th). unfold Rsqr in T.
  replace (WIDTH s / 2 + (cr - g) * cos th - WIDTH s / 2)
    with ((g - cr) * - cos th) by ring.
  replace (HEIGHT s / 2 + (cr - g) * sin th - HEIGHT s / 2)
    with ((g - cr) * - sin th) by ring.
  apply sqrt_sum_squares_scaled; [lra | nra].
Qed.

(** Claim C5 as stated fails on a surface too small for the ball.  A new
    instance on a 256 x 256 surface has boundary radius 3 and ball radius 5;
    its first tick collides and places the ball at distance 2 from the
    boundary center, so distance plus radius is 7, beyond the boundary radius
    by 4. *)
Lemma containment_fails_when_cramped :
  collides (preCollision 0 cramped) = true
  /\ ~ (distance (update 0 cramped) + ballRadius (ball (update 0 cramped))
        <= CIRCLE_RADIUS (update 0 cramped) + 1).
Proof.
  split; [exact cramped_collides |].
  rewrite update_tick. unfold tick. cbv zeta. rewrite cramped_collides.
  set (s1 := preCollision 0 cramped).
  assert (Hc : CIRCLE_RADIUS s1 = 3).
  { run_model. replace (Rmin 256 256) with 256
      by (symmetry; apply Rmin_left; lra). lra. }
  assert (Hg : grownRadius s1 = 5).
  { unfold grownRadius, MAX_BALL_RADIUS. rewrite Hc.
    replace (ballRadius (ball s1)) with 5 by reflexivity.
    real_ops.
    replace (RealNum.ltb 5 (3 - 10)) with false
      by (symmetry; apply ltb_false; lra).
    reflexivity. }
  destruct (respond_canvas s1) as [Hw Hh].
  rewrite (CIRCLE_RADIUS_canvas _ _ Hw Hh), respond_radius,
    respond_beyond by (rewrite Hc, Hg; lra).
  rewrite Hc, Hg. lra.
Qed.

Lemma reversing_free : collides (preCollision 0 reversing) = false.
Proof.
  run_model. apply leb_false. rewrite surface_radius.
  apply sqrt_lt; [nra | lra | lra].
Qed.

(** Claim C6 as stated fails for a negative decay factor, which
    [setVelocityDecay] takes as it is: with factor -1/2 a tick without
    collision ends at a speed that is not negative, while the factor times
    the speed after gravity is negative. *)
Lemma decay_law_fails_when_negative :
  collides (preCollision 0 reversing) = false
  /\ speed (update 0 reversing)
     <> VELOCITY_DECAY (tuning reversing)
        * speed (applyGravity (recordTrail (readClock 0 reversing))).
Proof.
  split; [exact reversing_free |].
  assert (Hp := speed_nonneg (update 0 reversing)).
  assert (Hg : 1 <= speed (applyGravity (recordTrail (readClock 0 reversing)))).
  { run_model. apply le_sqrt; lra. }
  replace (VELOCITY_DECAY (tuning reversing)) with (- (1 / 2)) by reflexivity.
  nra.
Qed.

(** *** The radius along a run *)

Ltac kept := intros; assumption.

Lemma update_canvas (now : R) (s : Sim R) :
  WIDTH (update now s) = WIDTH s /\ HEIGHT (update now s) = HEIGHT s.
Proof.
  rewrite update_tick. unfold tick. cbv zeta.
  destruct (preCollision_static now s) as (Hw & Hh & _).
  destruct (collides (preCollision now s)); [| split; assumption].
  destruct (respond_canvas (preCollision now s)) as [-> ->].
  split; assumption.
Qed.

Lemma update_radius (now : R) (s : Sim R) :
  ballRadius (ball (update now s))
  = if collides (preCollision now s)
    then grownRadius (preCollision now s) else ballRadius (ball s).
Proof.
  rewrite update_tick. unfold tick. cbv zeta.
  destruct (collides (preCollision now s)).
  - apply respond_radius.
  - apply (preCollision_static now s).
Qed.

Lemma preCollision_grownRadius (now : R) (s : Sim R) :
  grownRadius (preCollision now s) = grownRadius s.
Proof. vm_compute. reflexivity. Qed.

Lemma MAX_BALL_RADIUS_canvas (s s' : Sim R) :
  WIDTH s' = WIDTH s -> HEIGHT s' = HEIGHT s ->
  MAX_BALL_RADIUS s' = MAX_BALL_RADIUS s.
Proof.
  intros Hw Hh. unfold MAX_BALL_RADIUS.
  rewrite (CIRCLE_RADIUS_canvas _ _ Hw Hh). reflexivity.
Qed.

Lemma update_fits (now : R) (s : Sim R) : ballFits s -> ballFits (update now s).
Proof.
  intros [Hi Hr]. unfold ballFits.
  destruct (update_canvas now s) as [Hw Hh].
  rewrite (MAX_BALL_RADIUS_canvas _ _ Hw Hh), update_radius.
  split; [exact Hi |].
  destruct (collides (preCollision now s)); [| exact Hr].
  rewrite preCollision_grownRadius. apply grownRadius_max, Hr.
Qed.

Lemma calls_fit (cs : list (Call R)) (s : Sim R) :
  ballFits s -> ballFits (calls cs s).
Proof.
  apply (calls_keep ballFits);
    [ | kept | kept | | kept | kept | kept | kept | kept | kept | kept | kept
      | kept ].
  - intros now rnd u [Hi _]. split; exact Hi.
  - intros now u H. apply update_fits, H.
Qed.

Lemma calls_canvas (cs : list (Call R)) (s : Sim R) :
  WIDTH (calls cs s) = WIDTH s /\ HEIGHT (calls cs s) = HEIGHT s.
Proof.
  apply (calls_keep (fun u => WIDTH u = WIDTH s /\ HEIGHT u = HEIGHT s));
    [ | kept | kept | | kept | kept | kept | kept | kept | kept | kept | kept
      | kept | split; reflexivity ].
  - intros now rnd u Hu. exact Hu.
  - intros now u Hu. destruct (update_canvas now u) as [-> ->]. exact Hu.
Qed.

(** On a surface large enough for a new ball, the radius never exceeds
    MAX_BALL_RADIUS, ten below the boundary radius the constructor computed:
    no call, frame or recorder event takes a ball within the maximum beyond
    it. *)
Theorem radius_within_max (cs : list (Call R)) (s : Sim R) :
  ballFits s ->
  ballRadius (ball (calls cs s)) <= Rmin (WIDTH s) (HEIGHT s) / 2 - 125 - 10.
Proof.
  intros H. destruct (@calls_fit cs s H) as [_ Hm].
  destruct (calls_canvas cs s) as [Hw Hh].
  rewrite (MAX_BALL_RADIUS_canvas _ _ Hw Hh) in Hm. exact Hm.
Qed.

Lemma update_inside (now : R) (s : Sim R) :
  ballRadius (ball s) <= CIRCLE_RADIUS s -> inside (update now s).
Proof.
  intros Hr. unfold inside.
  destruct (collides (preCollision now s)) eqn:Hc.
  - right. rewrite update_tick. unfold tick. cbv zeta. rewrite Hc.
    apply respond_contained.
    destruct (preCollision_static now s) as (Hw & Hh & Hb & _).
    rewrite Hb, (CIRCLE_RADIUS_canvas _ _ Hw Hh). exact Hr.
  - rewrite update_tick. unfold tick. cbv zeta. rewrite Hc.
    unfold collides in Hc.
    set (s1 := preCollision now s) in *.
    set (cr := CIRCLE_RADIUS s1) in *. set (d := distance s1) in *.
    set (r := ballRadius (ball s1)) in *.
    real_ops. apply leb_false in Hc. lra.
Qed.

(** Whatever was done to an instance whose ball fits, a drag to any point
    included, the next tick ends with the whole ball within the boundary. *)
Theorem tick_brings_ball_inside (now : R) (cs : list (Call R)) (s : Sim R) :
  ballFits s -> inside (update now (calls cs s)).
Proof.
  intros H. apply update_inside.
  destruct (@calls_fit cs s H) as [_ Hm].
  unfold MAX_BALL_RADIUS in Hm.
  set (cr := CIRCLE_RADIUS (calls cs s)) in *.
  set (r := ballRadius (ball (calls cs s))) in *.
  real_ops. lra.
Qed.

Lemma update_tuning (now : R) (s : Sim R) : tuning (update now s) = tuning s.
Proof.
  rewrite update_tick. unfold tick. cbv zeta.
  destruct (preCollision_static now s) as (_ & _ & _ & Ht).
  destruct (collides (preCollision now s)); [| exact Ht].
  rewrite <- Ht. unfold respond, notify. cbv zeta.
  destruct (onCollision _); reflexivity.
Qed.


Lemma updates_nil (s : Sim R) : updates [] s = s.
Proof. reflexivity. Qed.

(** With the growth slider at 0 the factor is 1 and ticks leave the radius
    as it is, collisions or not. *)
Theorem growth_off_keeps_radius (nows : list R) (s : Sim R) :
  ballRadius (ball (updates nows (setBallGrowthRate 0 s))) = ballRadius (ball s).
Proof.
  assert (G : forall u : Sim R,
             BALL_GROWTH_RATE (tuning u) = 1 ->
             ballRadius (ball (updates nows u)) = ballRadius (ball u)).
  { induction nows as [| now nows IH]; intros u Hu; [reflexivity |].
    rewrite updates_cons, IH by (rewrite update_tuning; exact Hu).
    rewrite update_radius.
    destruct (collides (preCollision now u)); [| reflexivity].
    rewrite preCollision_grownRadius. unfold grownRadius. rewrite Hu.
    set (r := ballRadius (ball u)). set (m := MAX_BALL_RADIUS u). real_ops.
    destruct (RealNum.ltb r m) eqn:E; [| reflexivity].
    apply ltb_true in E. rewrite Rmult_1_r. apply Rmin_left. lra. }
  rewrite G; [reflexivity |]. unfold setBallGrowthRate. real_ops.
  cbn [tuning with_tuning BALL_GROWTH_RATE]. lra.
Qed.

(** *** The speed through a collision *)

Lemma reflect_keeps_norm (vx vy nx ny r : R) :
  0 <= r -> nx * nx + ny * ny = 1 ->
  sqrt ((vx - 2 * (vx * nx + vy * ny) * nx) * r
        * ((vx - 2 * (vx * nx + vy * ny) * nx) * r)
        + (vy - 2 * (vx * nx + vy * ny) * ny) * r
          * ((vy - 2 * (vx * nx + vy * ny) * ny) * r))
  = r * sqrt (vx * vx + vy * vy).
Proof.
  intros Hr Hn. rewrite speed_scaled by exact Hr. f_equal. f_equal.
  replace ((vx - 2 * (vx * nx + vy * ny) * nx)
           * (vx - 2 * (vx * nx + vy * ny) * nx)
           + (vy - 2 * (vx * nx + vy * ny) * ny)
             * (vy - 2 * (vx * nx + vy * ny) * ny))
    with (vx * vx + vy * vy
          + 4 * (vx * nx + vy * ny) * (vx * nx + vy * ny)
            * (nx * nx + ny * ny - 1)) by ring.
  rewrite Hn. ring.
Qed.

Lemma reflect_speed (s : Sim R) :
  distance s <> 0 ->
  speed (reflectVelocity (normal s) s) = 95 / 100 * speed s.
Proof.
  intros Hd. assert (Hn := unit_normal s Hd).
  unfold speed. rewrite reflectVelocity_velocity. revert Hn.
  generalize (normal s). generalize (ballVelocity (ball s)).
  intros [vx vy] [nx ny]. unfold dotp, norm, restitution. real_ops.
  intros Hn. apply reflect_keeps_norm; [lra | exact Hn].
Qed.

Lemma boost_speed (s : Sim R) :
  0 <= VELOCITY_INCREASE_FACTOR (tuning s) ->
  speed (boostVelocity s) = VELOCITY_INCREASE_FACTOR (tuning s) * speed s.
Proof.
  intros Hk. unfold speed, boostVelocity.
  change (ballVelocity (ball (set_ballVelocity ?v s))) with v.
  destruct (ballVelocity (ball s)) as [vx vy]. unfold norm. real_ops.
  apply speed_scaled, Hk.
Qed.

Lemma floor_speed (s : Sim R) :
  speed s <> 0 -> speed (enforceMinVelocity s) = Rmax 1 (speed s).
Proof.
  intros Hz. assert (Hp := speed_nonneg s).
  unfold speed at 1. rewrite enforceMinVelocity_velocity.
  destruct (RealNum.ltb (speed s) 1) eqn:E.
  - apply ltb_true in E. rewrite Rmax_left by lra.
    assert (Hs : speed s = norm (ballVelocity (ball s))) by reflexivity.
    revert Hs. generalize (ballVelocity (ball s)). intros [vx vy] Hs.
    set (sp := speed s) in *.
    assert (Hd : 0 <= 1 / sp) by (apply Rlt_le, Rdiv_lt_0_compat; lra).
    unfold norm in *. real_ops. rewrite (speed_scaled _ _ Hd), <- Hs.
    field. exact Hz.
  - apply ltb_false in E. rewrite Rmax_right by exact E. reflexivity.
Qed.

(** A collision with a defined normal and a boost factor that is not
    negative: the reflection keeps the direction's magnitude but for the
    restitution, so the speed right after it is 0.95 times the speed before;
    and, unless the boosted velocity is zero, the tick ends at the larger of
    1 and 0.95 times the boost factor times the speed before the
    reflection. *)
Theorem speed_after_collision (now : R) (s : Sim R) :
  let s1 := preCollision now s in
  let k := VELOCITY_INCREASE_FACTOR (tuning s) in
  collides s1 = true ->
  distance s1 <> 0 ->
  0 <= k ->
  speed (reflectVelocity (normal s1) s1) = 95 / 100 * speed s1
  /\ (k * speed s1 <> 0 ->
      speed (update now s) = Rmax 1 (95 / 100 * k * speed s1)).
Proof.
  intros s1 k Hc Hd Hk.
  assert (Hr := reflect_speed s1 Hd).
  split; [exact Hr |]. intros Hz.
  rewrite update_tick. unfold tick. cbv zeta. fold s1. rewrite Hc.
  unfold speed at 1. rewrite respond_velocity, bounce_velocity.
  change (norm (ballVelocity (ball (enforceMinVelocity ?u))))
    with (speed (enforceMinVelocity u)).
  assert (Hb : speed (boostVelocity (reflectVelocity (normal s1) s1))
               = 95 / 100 * k * speed s1).
  { rewrite boost_speed.
    - change (VELOCITY_INCREASE_FACTOR (tuning (reflectVelocity (normal s1) s1)))
        with (VELOCITY_INCREASE_FACTOR (tuning s1)).
      destruct (preCollision_static now s) as (_ & _ & _ & Ht).
      fold s1 in Ht. rewrite Ht, Hr. fold k. ring.
    - change (VELOCITY_INCREASE_FACTOR (tuning (reflectVelocity (normal s1) s1)))
        with (VELOCITY_INCREASE_FACTOR (tuning s1)).
      destruct (preCollision_static now s) as (_ & _ & _ & Ht).
      fold s1 in Ht. rewrite Ht. exact Hk. }
  rewrite floor_speed; rewrite Hb; [reflexivity | nra].
Qed.

(** *** Where a collision puts the ball and its mark *)

Lemma hypot_pos (x y : R) : 0 < x -> sqrt (x * x + y * y) = x * sqrt (1 + (y / x)²).
Proof.
  intros Hx. rewrite <- (sqrt_square x) at 3 by lra.
  rewrite <- sqrt_mult by (try nra; unfold Rsqr; nra).
  f_equal. unfold Rsqr. field. lra.
Qed.

Lemma sqrt_one_plus_sqr_pos (t : R) : 0 < sqrt (1 + t²).
Proof. apply sqrt_lt_R0. unfold Rsqr. nra. Qed.

Lemma atan2_ray (y x : R) :
  sqrt (x * x + y * y) <> 0 ->
  cos (RealNum.atan2 y x) = x / sqrt (x * x + y * y)
  /\ sin (RealNum.atan2 y x) = y / sqrt (x * x + y * y).
Proof.
  intros Hd. unfold RealNum.atan2.
  assert (Hq := sqrt_one_plus_sqr_pos (y / x)).
  destruct (Rlt_dec 0 x) as [Hx | Hx].
  - rewrite cos_atan, sin_atan, (hypot_pos y Hx).
    split; field; lra.
  - destruct (Rlt_dec x 0) as [Hx' | Hx'].
    + assert (Hh : sqrt (x * x + y * y) = - x * sqrt (1 + (y / x)²)).
      { replace (x * x + y * y) with (- x * - x + y * y) by ring.
        rewrite hypot_pos by lra.
        replace ((y / - x)²) with ((y / x)²); [reflexivity |].
        unfold Rsqr. field. lra. }
      rewrite Hh.
      destruct (Rle_dec 0 y).
      * rewrite neg_cos, neg_sin, cos_atan, sin_atan. split; field; lra.
      * unfold Rminus. rewrite cos_plus, sin_plus, cos_neg, sin_neg, cos_PI, sin_PI,
          cos_atan, sin_atan.
        split; field; lra.
    + assert (Hx0 : x = 0) by lra. subst x.
      replace (0 * 0 + y * y) with (y * y) in * by ring.
      destruct (Rlt_dec 0 y) as [Hy | Hy].
      * rewrite cos_PI2, sin_PI2, sqrt_square by lra. split; field; lra.
      * destruct (Rlt_dec y 0) as [Hy' | Hy'].
        -- rewrite cos_neg, sin_neg, cos_PI2, sin_PI2.
           replace (y * y) with (- y * - y) by ring.
           rewrite sqrt_square by lra. split; field; lra.
        -- assert (Hy0 : y = 0) by lra. subst y.
           exfalso. apply Hd. rewrite Rmult_0_l. apply sqrt_0.
Qed.

Lemma collisionAngle_ray (s : Sim R) :
  distance s <> 0 ->
  cos (collisionAngle s) = fst (normal s)
  /\ sin (collisionAngle s) = snd (normal s).
Proof.
  unfold distance, normal, collisionAngle, distance, norm.
  generalize (offset s). intros [dx dy]. real_ops. apply atan2_ray.
Qed.

(** At a collision with a defined normal, the angle the code takes with
    atan2 points along the normal: the mark is the point of the boundary on
    the ray from the boundary center through the ball, and the ball is put
    back on that ray, its new radius short of the boundary. *)
Theorem collision_along_normal (now : R) (s : Sim R) :
  let s1 := preCollision now s in
  let n := normal s1 in
  let cc := circleCenter s in
  collides s1 = true ->
  distance s1 <> 0 ->
  ballCenter (ball (update now s))
  = (fst cc + (CIRCLE_RADIUS s - ballRadius (ball (update now s))) * fst n,
     snd cc + (CIRCLE_RADIUS s - ballRadius (ball (update now s))) * snd n)
  /\ last (collisionPoints (ball (update now s))) (0, 0)
     = (fst cc + CIRCLE_RADIUS s * fst n, snd cc + CIRCLE_RADIUS s * snd n).
Proof.
  intros s1 n cc Hc Hd.
  destruct (collisionAngle_ray s1 Hd) as [Hcos Hsin]. fold n in Hcos, Hsin.
  destruct (preCollision_static now s) as (Hw & Hh & _). fold s1 in Hw, Hh.
  assert (Hcr := CIRCLE_RADIUS_canvas _ _ Hw Hh).
  assert (Hcc : circleCenter s1 = cc).
  { unfold cc, circleCenter. rewrite Hw, Hh. reflexivity. }
  split.
  - rewrite update_radius. fold s1. rewrite Hc.
    rewrite update_tick. unfold tick. cbv zeta. fold s1. rewrite Hc.
    rewrite respond_center, Hcc, Hcr. real_ops. rewrite Hcos, Hsin.
    reflexivity.
  - rewrite update_marks. fold s1. rewrite Hc.
    rewrite last_last. unfold collisionMark. rewrite Hcc, Hcr. real_ops.
    rewrite Hcos, Hsin. reflexivity.
Qed.





(** *** The clock *)

Lemma start_clock (now now' : R) (s : Sim R) :
  startTime (driver (start now now' s))
  = (if running (driver s) then startTime (driver s)
     else now - elapsedTime (driver s) * 1000)
  /\ elapsedTime (driver (start now now' s))
     = (now' - startTime (driver (start now now' s))) / 1000.
Proof.
  set (f := fun d : Driver R =>
              {| animationId := animationId d; running := true;
                 startTime := if negb (running d)
                              then now - elapsedTime d * 1000
                              else startTime d;
                 elapsedTime := elapsedTime d; isDragging := isDragging d |}).
  assert (E : start now now' s = animate now' (with_driver f s)).
  { unfold start. cbv zeta. f_equal.
    destruct s as [W H c oc b t [a r st e g] ca br].
    destruct r; reflexivity. }
  rewrite E, (animate_running now' (with_driver f s) eq_refl).
  rewrite update_with_driver.
  generalize (update now' s). intros u.
  destruct s as [W H c oc b t [a r st e g] ca br].
  destruct r; split; reflexivity.
Qed.

(** Time spent stopped is not counted: [stop] leaves the elapsed time, and
    the tick [start] runs after a stop reads the elapsed time of before plus
    the time since that [start]; [start] on a running instance leaves the
    clock's origin. *)
Theorem pause_is_not_counted (now now' : R) (s : Sim R) :
  elapsedTime (driver (stop s)) = elapsedTime (driver s)
  /\ elapsedTime (driver (start now now' (stop s)))
     = elapsedTime (driver s) + (now' - now) / 1000
  /\ (running (driver s) = true ->
      elapsedTime (driver (start now now' s))
      = (now' - startTime (driver s)) / 1000).
Proof.
  split; [reflexivity | split].
  - destruct (start_clock now now' (stop s)) as [Hs He].
    rewrite He, Hs.
    change (running (driver (stop s))) with false.
    change (elapsedTime (driver (stop s))) with (elapsedTime (driver s)).
    cbv iota. field.
  - intros Hr. destruct (start_clock now now' s) as [Hs He].
    rewrite He, Hs, Hr. reflexivity.
Qed.

(** *** The statements above, on the application's surface *)

Lemma falling_fits : ballFits falling.
Proof.
  split; unfold MAX_BALL_RADIUS; run_model; rewrite surface_radius; lra.
Defined.

Lemma radius_within_max_witness :
  ballFits falling
  /\ ballRadius
       (ball (calls [CallMouseDown 540 700; CallMouseMove 0 0; CallMouseUp 1 2]
                falling))
     <= Rmin (WIDTH falling) (HEIGHT falling) / 2 - 125 - 10.
Proof.
  split; [exact falling_fits |].
  apply (@radius_within_max
           [CallMouseDown 540 700; CallMouseMove 0 0; CallMouseUp 1 2] falling).
  exact falling_fits.
Defined.

Lemma tick_brings_ball_inside_witness :
  ballFits falling
  /\ inside (update 3 (calls [CallMouseDown 540 700; CallMouseMove 0 0] falling)).
Proof.
  split; [exact falling_fits |].
  apply (@tick_brings_ball_inside 3
           [CallMouseDown 540 700; CallMouseMove 0 0] falling).
  exact falling_fits.
Defined.




Lemma leaving_collides : collides (preCollision 0 leaving) = true.
Proof.
  run_model. apply leb_true. rewrite surface_radius.
  apply le_sqrt; lra.
Defined.

Lemma leaving_distance : distance (preCollision 0 leaving) <> 0.
Proof.
  assert (H : 1 <= distance (preCollision 0 leaving))
    by (run_model; apply le_sqrt; lra).
  lra.
Defined.

Lemma leaving_boost : 0 <= VELOCITY_INCREASE_FACTOR (tuning leaving).
Proof. run_model. lra. Defined.

Lemma leaving_moves :
  VELOCITY_INCREASE_FACTOR (tuning leaving) * speed (preCollision 0 leaving) <> 0.
Proof.
  assert (H : 1 <= speed (preCollision 0 leaving))
    by (run_model; apply le_sqrt; lra).
  assert (K : VELOCITY_INCREASE_FACTOR (tuning leaving) = 102 / 100)
    by reflexivity.
  rewrite K. nra.
Defined.

Lemma speed_after_collision_witness :
  collides (preCollision 0 leaving) = true
  /\ distance (preCollision 0 leaving) <> 0
  /\ 0 <= VELOCITY_INCREASE_FACTOR (tuning leaving)
  /\ speed (update 0 leaving)
     = Rmax 1 (95 / 100 * VELOCITY_INCREASE_FACTOR (tuning leaving)
               * speed (preCollision 0 leaving)).
Proof.
  split; [exact leaving_collides | split; [exact leaving_distance |]].
  split; [exact leaving_boost |].
  apply (proj2 (@speed_after_collision 0 leaving leaving_collides
                  leaving_distance leaving_boost)).
  exact leaving_moves.
Defined.

Lemma collision_along_normal_witness :
  collides (preCollision 0 outside) = true
  /\ distance (preCollision 0 outside) <> 0
  /\ last (collisionPoints (ball (update 0 outside))) (0, 0)
     = (fst (circleCenter outside)
        + CIRCLE_RADIUS outside * fst (normal (preCollision 0 outside)),
        snd (circleCenter outside)
        + CIRCLE_RADIUS outside * snd (normal (preCollision 0 outside))).
Proof.
  split; [exact outside_collides | split; [exact outside_distance |]].
  apply (proj2 (@collision_along_normal 0 outside outside_collides
                  outside_distance)).
Defined.



Lemma pause_is_not_counted_witness :
  running (driver looping) = true
  /\ elapsedTime (driver (start 5 6 looping))
     = (6 - startTime (driver looping)) / 1000.
Proof.
  split; [reflexivity |].
  apply (proj2 (proj2 (@pause_is_not_counted 5 6 looping))).
  reflexivity.
Defined.

Lemma trail_bounded_witness :
  (length (previousPositions (ball falling)) <= MOTION_BLUR_STEPS)%nat
  /\ (length (previousPositions
                (ball (calls [CallStart 0 1; CallFrame 1 2; CallFrame 2 3]%R
                         falling)))
      <= MOTION_BLUR_STEPS)%nat.
Proof.
  assert (H : (length (previousPositions (ball falling)) <= MOTION_BLUR_STEPS)%nat)
    by (apply Nat.le_0_l).
  split; [exact H |].
  apply (@trail_bounded R _ [CallStart 0 1; CallFrame 1 2; CallFrame 2 3]
           falling H).
Defined.

Lemma recorder_known_witness :
  recorderKnown falling
  /\ recorderKnown
       (calls [CallStartRecording (Some 1%nat) None; CallStopRecording] falling).
Proof.
  split; [exact I |].
  apply (@recorder_known R _
           [CallStartRecording (Some 1%nat) None; CallStopRecording] falling).
  exact I.
Defined.

Lemma falling_frames : framesFresh falling.
Proof. split; constructor. Defined.

Lemma frames_fresh_witness :
  framesFresh falling
  /\ framesFresh (calls [CallStart 0 1; CallStop; CallStart 2 3] falling).
Proof.
  split; [exact falling_frames |].
  apply (@frames_fresh R _ [CallStart 0 1; CallStop; CallStart 2 3] falling).
  exact falling_frames.
Defined.

Lemma falling_off_ball : pointerOnBall 0 0 falling = false.
Proof.
  run_model. apply leb_false.
  apply Rlt_le_trans with 6; [lra |]. apply le_sqrt; lra.
Defined.

Lemma pointer_off_ball_ignored_witness :
  pointerOnBall 0 0 falling = false
  /\ isDragging (driver falling) = false
  /\ handleMouseUp 2 3 (handleMouseMove 300 900 (handleMouseDown 0 0 falling))
     = falling.
Proof.
  split; [exact falling_off_ball | split; [reflexivity |]].
  apply (@pointer_off_ball_ignored R _ 0 0 300 900 2 3 falling falling_off_ball).
  reflexivity.
Defined.

Lemma drag_follows_pointer_witness :
  isDragging (driver held) = true
  /\ ballCenter (ball (moves [(300, 900); (310, 905)] held)) = (310, 905)
  /\ driver (moves [(300, 900); (310, 905)] held) = driver held.
Proof.
  split; [reflexivity |].
  destruct (@drag_follows_pointer R _ [(300, 900); (310, 905)] held eq_refl)
    as (_ & Hc & _ & _ & _ & _ & _ & Hd).
  split; [exact Hc | exact Hd].
Defined.

Lemma looping_pending : In 1%nat (frames (browser looping)).
Proof. left. reflexivity. Defined.

Lemma frame_runs_one_tick_witness :
  running (driver looping) = true
  /\ In 1%nat (frames (browser looping))
  /\ ball (frame 1 16 looping) = ball (update 16 looping)
  /\ frames (browser (frame 1 16 looping))
     = remove Nat.eq_dec 1%nat (frames (browser looping))
       ++ [nextFrame (browser looping)].
Proof.
  split; [reflexivity | split; [exact looping_pending |]].
  destruct (@frame_runs_one_tick R _ 1%nat 16 looping eq_refl looping_pending)
    as (Hb & _ & _ & _ & Hf & _).
  split; [exact Hb | exact Hf].
Defined.

Lemma startRecording_stream_witness :
  vp9Supported (browser falling) = true
  /\ exists s',
       startRecording (Some 1%nat) (Some [AudioTrack 3; VideoTrack 30]) falling
       = Some s'
       /\ nth_error (recorders (browser s')) 0
          = Some {| stream := [VideoTrack 60; AudioTrack 3]; state := recording |}.
Proof.
  split; [reflexivity |].
  destruct (proj2 (@startRecording_stream R (Some 1%nat)
                     (Some [AudioTrack 3; VideoTrack 30]) falling) eq_refl)
    as (s' & E & Hn & _).
  exists s'. split; [exact E | exact Hn].
Defined.

Lemma stopRecording_only_stops_witness :
  mediaRecorder (capture capturing) = Some 0%nat
  /\ stateOf 0 capturing = Some recording
  /\ stateOf 0 (stopRecording capturing) = Some inactive.
Proof.
  split; [reflexivity | split; [reflexivity |]].
  destruct (@stopRecording_only_stops R capturing) as (_ & _ & _ & H & _).
  apply (H 0%nat); reflexivity.
Defined.

Lemma capture_round_trip_witness :
  vp9Supported (browser falling) = true
  /\ exists s1,
       startRecording (Some 4%nat) None falling = Some s1
       /\ events (browser (onstop (deliver [[3]]%nat
                                     (stopRecording
                                        (deliver [[1; 2]; []]%nat s1)))))
          = events (browser falling)
            ++ [Completed 4%nat (concat ([[1; 2]; []] ++ [[3]]))%nat].
Proof.
  split; [reflexivity |].
  destruct (@capture_round_trip R 4%nat None [[1; 2]; []]%nat [[3]]%nat
              falling eq_refl)
    as (s1 & E & He & _).
  exists s1. split; [exact E | exact He].
Defined.

(** *** The application's handlers, on the page *)

Lemma page_canvas :
  UI.canvasRef Page.page = Some {| UI.width := 1080; UI.height := 1920 |}.
Proof. reflexivity. Defined.

Lemma page_simulation : UI.simulationRef Page.page = Some looping.
Proof. reflexivity. Defined.

Lemma play_pause_in_step_witness :
  UI.simulationRef Page.page = Some looping
  /\ exists sim',
       UI.simulationRef (App.handlePlayPause 5 6 Page.page) = Some sim'
       /\ isRunning sim' = negb (isRunning looping)
       /\ UI.isRunning (App.handlePlayPause 5 6 Page.page) = isRunning sim'.
Proof.
  split; [exact page_simulation |].
  destruct (@play_pause_in_step R _ 5 6 Page.page looping page_simulation)
    as (sim' & H1 & H2 & H3 & _).
  exists sim'. split; [exact H1 | split; [exact H2 | exact H3]].
Defined.

Lemma page_on_ball :
  pointerOnBall
    (fst (App.canvasPoint {| UI.width := 1080; UI.height := 1920 |}
            Page.box Page.onBall))
    (snd (App.canvasPoint {| UI.width := 1080; UI.height := 1920 |}
            Page.box Page.onBall))
    looping
  = true.
Proof.
  run_model. apply leb_true.
  replace ((270 - 0) * (1080 / 540) - 540) with 0 by field.
  replace ((350 - 0) * (1920 / 960) - 700) with 0 by field.
  replace (0 * 0 + 0 * 0) with 0 by ring.
  rewrite sqrt_0. lra.
Defined.

Lemma release_after_pause_runs_unseen_witness :
  UI.canvasRef Page.page = Some {| UI.width := 1080; UI.height := 1920 |}
  /\ UI.simulationRef Page.page = Some looping
  /\ isRunning looping = true
  /\ pointerOnBall
       (fst (App.canvasPoint {| UI.width := 1080; UI.height := 1920 |}
               Page.box Page.onBall))
       (snd (App.canvasPoint {| UI.width := 1080; UI.height := 1920 |}
               Page.box Page.onBall))
       looping
     = true
  /\ UI.isRunning
       (App.handleMouseUp 9 10
          (App.handleMouseDown Page.box Page.onBall
             (App.handlePlayPause 5 6 Page.page)))
     = false
  /\ exists sim',
       UI.simulationRef
         (App.handleMouseUp 9 10
            (App.handleMouseDown Page.box Page.onBall
               (App.handlePlayPause 5 6 Page.page)))
       = Some sim'
       /\ isRunning sim' = true.
Proof.
  split; [exact page_canvas | split; [exact page_simulation |]].
  split; [reflexivity | split; [exact page_on_ball |]].
  apply (@release_after_pause_runs_unseen R _ 5 6 9 10 Page.box Page.onBall
           Page.page _ looping page_canvas page_simulation eq_refl
           page_on_ball).
Defined.

Lemma page_labels :
  Forall (fun t : TextElement.t R => TextElement.isDragging t = false)
    (UI.textElements Page.page).
Proof. repeat constructor. Defined.

Lemma label_drag_moves_hit_labels_witness :
  UI.canvasRef Page.page = Some {| UI.width := 1080; UI.height := 1920 |}
  /\ UI.simulationRef Page.page = Some looping
  /\ Forall (fun t : TextElement.t R => TextElement.isDragging t = false)
       (UI.textElements Page.page)
  /\ UI.textElements
       (App.handleMouseUp 9 10
          (App.handleMouseMove Page.box Page.elsewhere
             (App.handleMouseDown Page.box Page.onLabel Page.page)))
     = map (App.dragged
              (fst (App.canvasPoint {| UI.width := 1080; UI.height := 1920 |}
                      Page.box Page.onLabel))
              (snd (App.canvasPoint {| UI.width := 1080; UI.height := 1920 |}
                      Page.box Page.onLabel))
              (fst (App.canvasPoint {| UI.width := 1080; UI.height := 1920 |}
                      Page.box Page.elsewhere))
              (snd (App.canvasPoint {| UI.width := 1080; UI.height := 1920 |}
                      Page.box Page.elsewhere)))
         (UI.textElements Page.page).
Proof.
  split; [exact page_canvas | split; [exact page_simulation |]].
  split; [exact page_labels |].
  apply (@label_drag_moves_hit_labels R _ 9 10 Page.box Page.box Page.onLabel
           Page.elsewhere Page.page _ looping page_canvas page_simulation
           page_labels).
Defined.

Lemma record_button_round_trip_witness :
  UI.canvasRef Page.page = Some {| UI.width := 1080; UI.height := 1920 |}
  /\ UI.simulationRef Page.page = Some looping
  /\ UI.isRecording Page.page = false
  /\ vp9Supported (browser looping) = true
  /\ exists sim1 sim2,
       UI.simulationRef (App.handleRecording 4%nat None Page.page) = Some sim1
       /\ stateOf 0%nat sim1 = Some recording
       /\ UI.simulationRef
            (App.handleRecording 4%nat None (App.handleRecording 4%nat None Page.page))
          = Some sim2
       /\ stateOf 0%nat sim2 = Some inactive.
Proof.
  split; [exact page_canvas | split; [exact page_simulation |]].
  split; [reflexivity | split; [reflexivity |]].
  destruct (proj2 (@record_button_round_trip R 4%nat 4%nat None None Page.page
                     _ looping page_canvas page_simulation eq_refl) eq_refl)
    as (sim1 & sim2 & H1 & _ & H3 & _ & H5 & _ & H7 & _).
  exists sim1, sim2.
  split; [exact H1 | split; [exact H3 | split; [exact H5 | exact H7]]].
Defined.

(** *** A new instance *)




End Exact.

(** ** On binary64 floats *)

Module Binary64.

Import PrimFloat FloatAxioms SpecFloat FloatOps ZeroGravityDrag.

Section Run.

Variable t : FloatNum.Trig.

#[local] Instance floats : Number float := arithmetic t.

Local Open Scope float_scope.

(** Claim C2, on the code.  The ball dragged outside the boundary at zero
    gravity is at rest, so the tick after the release collides with velocity
    (0, 0): reflection and boost leave it at 0, the floor computes
    [scale = 1 / 0] and multiplies 0 by it, and the velocity is (NaN, NaN).
    The speed is then NaN and [1 <= speed] is false, where the claim has a
    speed of at least 1.  The radius stays within MAX_BALL_RADIUS. *)
Theorem velocity_floor_yields_nan :
  option_map (fun s => (ballCenter (ball s), ballVelocity (ball s),
                        GRAVITY (tuning s)))
             (dragged t)
  = Some ((540, 100), (0, 0), 0)
  /\ option_map (fun s => collides (preCollision 2001 s)) (dragged t) = Some true
  /\ option_map (fun s => ballVelocity (ball (update 2001 s))) (dragged t)
     = Some (PrimFloat.nan, PrimFloat.nan)
  /\ option_map (fun s => nleb 1 (speed (update 2001 s))) (dragged t) = Some false
  /\ option_map (fun s => nleb (ballRadius (ball (update 2001 s)))
                          (MAX_BALL_RADIUS (update 2001 s)))
                (dragged t)
     = Some true
  /\ option_map (fun s => ballVelocity (ball s)) (released t)
     = Some (PrimFloat.nan, PrimFloat.nan).
Proof. repeat apply conj; vm_compute; reflexivity. Qed.

(** *** Once the velocity is NaN *)

Lemma is_nan_value (x : float) : Prim2SF x = S754_nan -> x = nan.
Proof.
  intros H. rewrite <- (SF2Prim_Prim2SF x), H. reflexivity.
Qed.

Lemma add_nan_l (x : float) : nan + x = nan.
Proof. apply is_nan_value. rewrite add_spec. reflexivity. Qed.

Lemma add_nan_r (x : float) : x + nan = nan.
Proof.
  apply is_nan_value. rewrite add_spec.
  change (Prim2SF nan) with S754_nan.
  destruct (Prim2SF x) as [[|] | [|] | | [|] m e]; reflexivity.
Qed.

Lemma sub_nan_l (x : float) : nan - x = nan.
Proof. apply is_nan_value. rewrite sub_spec. reflexivity. Qed.

Lemma mul_nan_l (x : float) : nan * x = nan.
Proof. apply is_nan_value. rewrite mul_spec. reflexivity. Qed.

Lemma leb_nan_r (x : float) : (x <=? nan) = false.
Proof.
  rewrite leb_spec. change (Prim2SF nan) with S754_nan.
  unfold SFleb, SFcompare.
  destruct (Prim2SF x) as [[|] | [|] | | [|] m e]; reflexivity.
Qed.

Ltac float_ops :=
  cbv [nadd nsub nmul ndiv nsqrt nmin nltb nleb floats arithmetic
       FloatNum.number fst snd].

Lemma nan_tick (now : float) (s : Sim float) :
  ballVelocity (ball s) = (nan, nan) ->
  update now s = preCollision now s
  /\ ballVelocity (ball (update now s)) = (nan, nan)
  /\ ballCenter (ball (update now s)) = (nan, nan).
Proof.
  intros H.
  destruct (preCollision_motion now s) as [Hv Hc]. rewrite H in Hv, Hc.
  assert (Hv' : ballVelocity (ball (preCollision now s)) = (nan, nan)).
  { rewrite Hv. float_ops. rewrite !mul_nan_l, add_nan_l, mul_nan_l.
    reflexivity. }
  assert (Hc' : ballCenter (ball (preCollision now s)) = (nan, nan)).
  { rewrite Hc. float_ops. rewrite !mul_nan_l, add_nan_l, mul_nan_l, !add_nan_r.
    reflexivity. }
  assert (Hf : collides (preCollision now s) = false).
  { unfold collides, distance, norm, offset. rewrite Hc'. float_ops.
    rewrite !sub_nan_l, mul_nan_l, add_nan_l. apply leb_nan_r. }
  assert (E : update now s = preCollision now s).
  { rewrite update_tick. unfold tick. cbv zeta. rewrite Hf. reflexivity. }
  rewrite E. split; [reflexivity | split; assumption].
Qed.

(** A velocity that is NaN stays so: from then on no tick collides, every
    tick leaves the velocity NaN and the center NaN, and radius, marks and
    trace stay as they are.  Only [reset] or a drag bring the ball back. *)
Theorem nan_velocity_is_absorbing (now : float) (nows : list float)
    (s : Sim float) :
  ballVelocity (ball s) = (nan, nan) ->
  ballVelocity (ball (updates (now :: nows) s)) = (nan, nan)
  /\ ballCenter (ball (updates (now :: nows) s)) = (nan, nan)
  /\ ballRadius (ball (updates (now :: nows) s)) = ballRadius (ball s)
  /\ collisionPoints (ball (updates (now :: nows) s)) = collisionPoints (ball s)
  /\ events (browser (updates (now :: nows) s)) = events (browser s).
Proof.
  revert now s.
  induction nows as [| now' nows IH]; intros now s H;
    destruct (nan_tick now s H) as (E & Hv & Hc).
  - rewrite updates_cons. change (updates [] (update now s)) with (update now s).
    split; [exact Hv | split; [exact Hc |]].
    rewrite E. repeat split; vm_compute; reflexivity.
  - rewrite updates_cons.
    destruct (IH now' (update now s) Hv) as (H1 & H2 & H3 & H4 & H5).
    rewrite H1, H2, H3, H4, H5, E.
    repeat split; vm_compute; reflexivity.
Qed.

End Run.

Lemma nan_velocity_is_absorbing_witness :
  ballVelocity (ball lost) = (nan, nan)
  /\ ballVelocity
       (ball (updates (N := arithmetic flat) [16; 32]%float lost))
     = (nan, nan).
Proof.
  split; [reflexivity |].
  apply (@nan_velocity_is_absorbing flat 16%float [32%float] lost).
  reflexivity.
Defined.

End Binary64.
